(** * GraphRAG-Web-Assistant: crawler, graph ingestion and graph retrieval

    A shallow embedding of [src/web_loader.py], [src/graph_builder.py] and
    [GraphRAGChain.get_graph_context] of [src/rag_chain.py].

    Conventions.
    - A Python [str] is a Rocq [string] holding its UTF-8 bytes. What the
      code does to single ASCII characters ([replace(' ', '_')],
      [split('#')], truthiness, concatenation) is computed on these bytes.
      [str.strip] and [str.upper] go by the Unicode tables of the
      interpreter: in the graph builder and in retrieval they are the
      [Variable]s [str_strip] and [str_upper]. Module [PyStr] holds what
      they and [str.splitlines] compute on ASCII text; these functions serve
      in the concrete worlds and, for text stated to be ASCII, in the model
      of [clean_text].
    - A Python [set] of strings is a [gset string], a graph store keyed by
      identity is a [gmap]. [list(set(xs))] is a [Variable]: the order in
      which a set is iterated depends on the hashes and on the order of
      insertion.
    - Whatever lives outside the repository (the HTTP client and HTML parser,
      [urllib], the language model, the Neo4j driver) is a [Variable] of the
      section that uses it; an exception raised there is an [option] or a
      [bool] answer of that variable.
    - Code that can raise returns a sum; [try ... except Exception] is a
      combinator that turns the exception into a value. *)

From stdpp Require Import gmap strings list fin_maps sorting.
From Stdlib Require Import ZArith Ascii String Lia.

Open Scope string_scope.
Open Scope list_scope.
Open Scope Z_scope.

(** ** Python string methods *)

Module PyStr.

(** ASCII text: every byte below 128. On such text [strip], [upper] and,
    further down, [CleanText.splitlines] compute what the methods of [str]
    compute. *)
Definition is_ascii_char (c : ascii) : bool := (nat_of_ascii c <? 128)%nat.

(** [str.isspace] on one ASCII character: TAB, LF, VT, FF, CR, the four
    separators FS, GS, RS, US and the space. *)
Definition isspace (c : ascii) : bool :=
  let n := nat_of_ascii c in
  ((9 <=? n)%nat && (n <=? 13)%nat) || ((28 <=? n)%nat && (n <=? 32)%nat).

Fixpoint lstrip (s : string) : string :=
  match s with
  | EmptyString => EmptyString
  | String c s' => if isspace c then lstrip s' else s
  end.

Fixpoint rstrip (s : string) : string :=
  match s with
  | EmptyString => EmptyString
  | String c s' =>
      match rstrip s' with
      | EmptyString => if isspace c then EmptyString else String c EmptyString
      | r => String c r
      end
  end.

(** [s.strip()] for ASCII [s] *)
Definition strip (s : string) : string := rstrip (lstrip s).

Definition upper_char (c : ascii) : ascii :=
  let n := nat_of_ascii c in
  if ((97 <=? n)%nat && (n <=? 122)%nat)%bool then ascii_of_nat (n - 32) else c.

(** [s.upper()] for ASCII [s] *)
Fixpoint upper (s : string) : string :=
  match s with
  | EmptyString => EmptyString
  | String c s' => String (upper_char c) (upper s')
  end.

(** [s.replace(old, new)] for one-character [old] and [new]. *)
Fixpoint replace (old new : ascii) (s : string) : string :=
  match s with
  | EmptyString => EmptyString
  | String c s' => String (if Ascii.eqb c old then new else c) (replace old new s')
  end.

(** [s.split(sep)[0]] for a one-character [sep]: the text before the first
    occurrence of [sep], the whole string when there is none. *)
Fixpoint split_head (sep : ascii) (s : string) : string :=
  match s with
  | EmptyString => EmptyString
  | String c s' => if Ascii.eqb c sep then EmptyString else String c (split_head sep s')
  end.

(** [sep.join(parts)] *)
Fixpoint join (sep : string) (parts : list string) : string :=
  match parts with
  | [] => EmptyString
  | [p] => p
  | p :: ps => p +:+ sep +:+ join sep ps
  end.

(** Truthiness of a [str]: only [""] is falsy. *)
Definition nonempty (s : string) : bool :=
  match s with
  | EmptyString => false
  | String _ _ => true
  end.

(** Truthiness of an [Optional[str]]: [None] and [""] are falsy. *)
Definition truthy (o : option string) : bool :=
  match o with
  | None => false
  | Some s => nonempty s
  end.

(** Predicates on strings, for stating what the methods above achieve. *)
Fixpoint all_chars (P : ascii -> bool) (s : string) : bool :=
  match s with
  | EmptyString => true
  | String c s' => P c && all_chars P s'
  end.

Definition starts_with_space (s : string) : bool :=
  match s with
  | EmptyString => false
  | String c _ => isspace c
  end.

Fixpoint ends_with_space (s : string) : bool :=
  match s with
  | EmptyString => false
  | String c EmptyString => isspace c
  | String _ s' => ends_with_space s'
  end.

Definition islower (c : ascii) : bool :=
  let n := nat_of_ascii c in (97 <=? n)%nat && (n <=? 122)%nat.

Definition is_ascii (s : string) : bool := all_chars is_ascii_char s.

End PyStr.

(** ** The crawler, [src/web_loader.py] *)

Module WebLoader.

(** [langchain_core.documents.Document] as [scrape_page] builds it:
    [page_content] and the two metadata entries. [title] is
    [soup.title.string], which BeautifulSoup leaves [None] for a title tag
    without a single text child. *)
Record Document := mkDocument {
  page_content : string;
  source : string;
  title : option string
}.

(** What [scrape_page] reads off a parsed response: the result of
    [clean_text], the title tag when there is one, and the [href] of every
    anchor in document order. *)
Record Soup := mkSoup {
  soup_text : string;
  soup_title : option (option string);
  soup_hrefs : list string
}.

(** The two shapes [scrape_page] returns: the empty list of its guard
    ([return []]) and the pair of its body ([return docs, links] and
    [return [], []]). *)
Inductive ScrapeResult :=
| EmptyList
| Pair (docs : list Document) (links : list string).

(** [page_docs, new_links = value]: a pair unpacks into its two components;
    the empty list has no two values to unpack, which raises [ValueError]
    ([None] here). *)
Definition unpack (r : ScrapeResult) : option (list Document * list string) :=
  match r with
  | Pair docs links => Some (docs, links)
  | EmptyList => None
  end.

(** The loader object: the fields [load] and [scrape_page] mutate.
    [fetched] is a ghost field: the requests issued so far, oldest first,
    each with the depth of the frontier item that caused it. *)
Record Loader := mkLoader {
  visited : gset string;
  fetched : list (string * Z)
}.

Inductive Outcome :=
| Returned (all_docs : list Document)
| ValueError.

Section Crawl.

(** [urlparse(url).netloc] and [urljoin(base, href)] of [urllib.parse]. *)
Variable netloc : string -> string.
Variable urljoin : string -> string -> string.
(** The [try] block of [scrape_page] up to the parsed page:
    [requests.get], [raise_for_status] and the parse. [None] when anything
    inside the block raises (the handler answers [[], []] wherever the
    exception comes from, so one [None] stands for all of them). *)
Variable http_get : string -> option Soup.

Variable start_url : string.
Variable max_depth : Z.
Variable max_pages : Z.

Definition base_domain : string := netloc start_url.

Definition is_same_domain (url : string) : bool :=
  bool_decide (netloc url = base_domain).

(** The body of the [for a_tag in ...] loop, as a filter over the
    resolved and fragment-stripped targets. *)
Definition page_links (url : string) (seen : gset string) (hrefs : list string)
  : list string :=
  List.filter
    (fun full_url => is_same_domain full_url && bool_decide (full_url ∉ seen))
    (List.map (fun href => PyStr.split_head "#" (urljoin url href)) hrefs).

(** [depth] is a ghost argument, used for the [fetched] log only. *)
Definition scrape_page (url : string) (depth : Z) (self : Loader)
  : ScrapeResult * Loader :=
  if bool_decide (url ∈ visited self) || (max_pages <=? Z.of_nat (size (visited self)))
  then (EmptyList, self)
  else
    let self' := {| visited := {[url]} ∪ visited self;
                    fetched := fetched self ++ [(url, depth)] |} in
    match http_get url with
    | Some soup =>
        let title :=
          match soup_title soup with
          | Some t => t
          | None => Some "No Title"
          end in
        let docs := [mkDocument (soup_text soup) url title] in
        (Pair docs (page_links url (visited self') (soup_hrefs soup)), self')
    | None => (Pair [] [], self')
    end.

(** The local variables of [load] together with the loader. *)
Record Frame := mkFrame {
  self : Loader;
  queue : list (string * Z);
  all_docs : list Document
}.

Inductive Step :=
| Next (f : Frame)
| Done (o : Outcome).

(** One evaluation of the [while] condition and, when it holds, of the
    loop body. *)
Definition iteration (f : Frame) : Step :=
  match queue f with
  | [] => Done (Returned (all_docs f))
  | (current_url, current_depth) :: rest =>
      if Z.of_nat (size (visited (self f))) <? max_pages then
        if current_depth >? max_depth then
          Next {| self := self f; queue := rest; all_docs := all_docs f |}
        else
          let '(r, self') := scrape_page current_url current_depth (self f) in
          match unpack r with
          | None => Done ValueError
          | Some (page_docs, new_links) =>
              let queue' :=
                if current_depth <? max_depth then
                  rest ++ List.map (fun link => (link, current_depth + 1))
                            (List.filter (fun link => bool_decide (link ∉ visited self'))
                               new_links)
                else rest in
              Next {| self := self'; queue := queue';
                      all_docs := all_docs f ++ page_docs |}
          end
      else Done (Returned (all_docs f))
  end.

(** The [while] loop, run for at most [fuel] iterations. *)
Fixpoint run (fuel : nat) (f : Frame) : option Outcome :=
  match fuel with
  | O => None
  | S fuel' =>
      match iteration f with
      | Done o => Some o
      | Next f' => run fuel' f'
      end
  end.

Definition fresh : Loader := {| visited := ∅; fetched := [] |}.

Definition entry (l : Loader) : Frame :=
  {| self := l; queue := [(start_url, 0)]; all_docs := [] |}.

(** [WebLoader(url, max_depth, max_pages).load()] *)
Definition load (fuel : nat) : option Outcome := run fuel (entry fresh).

(** The frames the loop of a fresh loader passes through. *)
Inductive reachable : Frame -> Prop :=
| reach_entry : reachable (entry fresh)
| reach_next f f' : reachable f -> iteration f = Next f' -> reachable f'.

(** Loop invariant: every URL in the frontier and every document collected
    so far is on the seed's host. *)
Definition on_seed_host (f : Frame) : Prop :=
  Forall (fun p => netloc (fst p) = base_domain) (queue f)
  ∧ Forall (fun d => netloc (source d) = base_domain) (all_docs f).

(** Loop invariant: the bounds of the crawl, and the ghost log agreeing with
    the visited set. *)
Definition within_bounds (l : Loader) : Prop :=
  Z.of_nat (size (visited l)) <= max_pages
  ∧ Forall (fun p => snd p <= max_depth) (fetched l)
  ∧ ∀ url, url ∈ visited l ↔ url ∈ List.map fst (fetched l).

End Crawl.

End WebLoader.

(** ** The knowledge-graph builder, [src/graph_builder.py] *)

Module GraphBuilder.

(** The pydantic models [Node], [Relationship] and [GraphData]. *)
Record Node := mkNode {
  node_id : string;
  node_type : string
}.

Record Relationship := mkRelationship {
  rel_source : string;
  rel_target : option string;
  rel_type : string;
  rel_description : option string
}.

Record GraphData := mkGraphData {
  nodes : list Node;
  relationships : list Relationship
}.

(** The two statements [ingest_documents] sends, with their parameters.
    [label] is the text the f-string puts after [r:]. *)
Inductive Cypher :=
| MergeEntity (id type : string)
| MergeRelationship (source target label description : string).

(** The store as these statements see it: [Entity] nodes by [id] with their
    [type] property, relationships by (source id, label, target id) with
    their [description] property. *)
Record Neo4j := mkNeo4j {
  entities : gmap string string;
  edges : gmap (string * string * string) string
}.

(** What a statement does when the store accepts it.
    [MERGE (n:Entity {id: $id}) SET n.type = $type] creates the node when
    it is missing and sets its type. The relationship statement binds [s]
    and [t] by [MATCH]; with either one missing there is no row and nothing
    is written, otherwise the relationship is created when missing and its
    description set. *)
Definition execute (q : Cypher) (db : Neo4j) : Neo4j :=
  match q with
  | MergeEntity id type =>
      {| entities := <[id := type]> (entities db); edges := edges db |}
  | MergeRelationship source target label description =>
      if bool_decide (is_Some (entities db !! source))
         && bool_decide (is_Some (entities db !! target))
      then {| entities := entities db;
              edges := <[(source, label, target) := description]> (edges db) |}
      else db
  end.

(** The two status lines the loop prints for a chunk (chunks are numbered
    from 1). *)
Inductive Line :=
| Ingested (chunk : nat)
| Failed (chunk : nat).

(** Everything [ingest_documents] acts on: the store behind [self.graph],
    the statements sent to it so far (a ghost log, oldest first) and the
    status lines printed so far. *)
Record World := mkWorld {
  graph : Neo4j;
  issued : list Cypher;
  printed : list Line
}.

Inductive Result (A : Type) :=
| Ok (a : A)
| Raised.
Arguments Ok {A} a.
Arguments Raised {A}.

(** The store after a list of accepted statements. *)
Definition execute_all (qs : list Cypher) (db : Neo4j) : Neo4j :=
  fold_left (fun db q => execute q db) qs db.

(** *** Merges as assignments

    An accepted [MergeEntity] assigns a type to an id; an accepted
    [MergeRelationship] assigns a description to a triple when both ends are
    among the [known] entities. *)

Definition assign {K V} `{Countable K} (kvs : list (K * V)) (m : gmap K V) : gmap K V :=
  fold_left (fun m kv => <[fst kv := snd kv]> m) kvs m.

Definition entity_assignment (q : Cypher) : option (string * string) :=
  match q with
  | MergeEntity id type => Some (id, type)
  | MergeRelationship _ _ _ _ => None
  end.

Definition edge_assignment (known : gmap string string) (q : Cypher)
  : option (string * string * string * string) :=
  match q with
  | MergeEntity _ _ => None
  | MergeRelationship source target label description =>
      if bool_decide (is_Some (known !! source)) && bool_decide (is_Some (known !! target))
      then Some ((source, label, target), description)
      else None
  end.

Definition is_entity_merge (q : Cypher) : bool :=
  match q with
  | MergeEntity _ _ => true
  | MergeRelationship _ _ _ _ => false
  end.

(** Computations that read and write the world and may raise. *)
Definition M (A : Type) : Type := World -> Result A * World.

#[global] Instance M_ret : MRet M := fun A a w => (Ok a, w).

#[global] Instance M_bind : MBind M := fun A B k m w =>
  match m w with
  | (Ok a, w') => k a w'
  | (Raised, w') => (Raised, w')
  end.

(** [try: body except Exception: handler] *)
Definition try_except {A} (body handler : M A) : M A := fun w =>
  match body w with
  | (Ok a, w') => (Ok a, w')
  | (Raised, w') => handler w'
  end.

Definition print (l : Line) : M unit := fun w =>
  (Ok tt, {| graph := graph w; issued := issued w; printed := printed w ++ [l] |}).

(** [for x in xs: body(x)] *)
Fixpoint for_each {A} (body : A -> M unit) (xs : list A) : M unit :=
  match xs with
  | [] => mret tt
  | x :: xs' => _ ← body x; for_each body xs'
  end.

Section Ingest.

(** [str.strip] and [str.upper] of the interpreter. *)
Variable str_strip : string -> string.
Variable str_upper : string -> string.

(** [extract_graph_data]: the structured call to the language model;
    [None] when the call or the validation of its answer raises. *)
Variable extract_graph_data : string -> option GraphData.
(** The statements the store rejects (the driver raises): for one, a
    relationship statement whose label is not an identifier. *)
Variable query_raises : Cypher -> bool.

(** [self.graph.query(statement, params)] *)
Definition graph_query (q : Cypher) : M unit := fun w =>
  let w' := {| graph := graph w; issued := issued w ++ [q]; printed := printed w |} in
  if query_raises q then (Raised, w')
  else (Ok tt, {| graph := execute q (graph w'); issued := issued w';
                  printed := printed w' |}).

Definition extract (text : string) : M GraphData := fun w =>
  match extract_graph_data text with
  | Some data => (Ok data, w)
  | None => (Raised, w)
  end.

(** Body of [for node in data.nodes]. The [if data.nodes:] and
    [if data.relationships:] around the two loops only skip loops that an
    empty list would not enter, and have no counterpart here. *)
Definition create_node (node : Node) : M unit :=
  let clean_id := str_strip (node_id node) in
  graph_query (MergeEntity clean_id (node_type node)).

(** Body of [for rel in data.relationships]. *)
Definition create_relationship (rel : Relationship) : M unit :=
  match rel_target rel with
  | None => mret tt
  | Some target =>
      if negb (PyStr.nonempty target) then mret tt
      else
        let clean_source := str_strip (rel_source rel) in
        let clean_target := str_strip target in
        let desc :=
          match rel_description rel with
          | Some d => if PyStr.nonempty d then d else ""
          | None => ""
          end in
        graph_query
          (MergeRelationship clean_source clean_target
             (PyStr.replace " " "_" (str_upper (rel_type rel))) desc)
  end.

(** The [try] block for one chunk. *)
Definition ingest_chunk (i : nat) (doc : WebLoader.Document) : M unit :=
  data ← extract (WebLoader.page_content doc);
  _ ← for_each create_node (nodes data);
  _ ← for_each create_relationship (relationships data);
  print (Ingested (i + 1)).

(** [for i, doc in enumerate(documents)], from index [i] on. *)
Fixpoint ingest_from (i : nat) (documents : list WebLoader.Document) : M unit :=
  match documents with
  | [] => mret tt
  | doc :: rest =>
      _ ← try_except (ingest_chunk i doc) (print (Failed (i + 1)));
      ingest_from (S i) rest
  end.

Definition ingest_documents (documents : list WebLoader.Document) : M unit :=
  ingest_from 0 documents.

(** *** The statements of a chunk

    What the loops above send, written as lists; the lemmas of the second
    part show that [ingest_documents] sends and executes exactly these. *)

Definition node_statement (node : Node) : Cypher :=
  MergeEntity (str_strip (node_id node)) (node_type node).

Definition relationship_statement (rel : Relationship) : option Cypher :=
  match rel_target rel with
  | Some (String c t) =>
      Some (MergeRelationship (str_strip (rel_source rel)) (str_strip (String c t))
              (PyStr.replace " " "_" (str_upper (rel_type rel)))
              (default "" (rel_description rel)))
  | _ => None
  end.

Definition statements (data : GraphData) : list Cypher :=
  List.map node_statement (nodes data)
  ++ omap relationship_statement (relationships data).

(** Of a list of statements sent in order until one is rejected: the ones
    that reach the store, and the ones the store executes. *)
Fixpoint sent (qs : list Cypher) : list Cypher :=
  match qs with
  | [] => []
  | q :: qs' => if query_raises q then [q] else q :: sent qs'
  end.

Fixpoint accepted (qs : list Cypher) : list Cypher :=
  match qs with
  | [] => []
  | q :: qs' => if query_raises q then [] else q :: accepted qs'
  end.

Definition chunk_statements (doc : WebLoader.Document) : list Cypher :=
  match extract_graph_data (WebLoader.page_content doc) with
  | Some data => statements data
  | None => []
  end.

(** The chunk ends in the [except] branch: the extraction raises or one of
    its statements is rejected. *)
Definition chunk_fails (doc : WebLoader.Document) : bool :=
  match extract_graph_data (WebLoader.page_content doc) with
  | Some data => existsb query_raises (statements data)
  | None => true
  end.

Definition sent_for (documents : list WebLoader.Document) : list Cypher :=
  flat_map (fun doc => sent (chunk_statements doc)) documents.

Definition accepted_for (documents : list WebLoader.Document) : list Cypher :=
  flat_map (fun doc => accepted (chunk_statements doc)) documents.

(** The status line of chunk number [i + 1]. *)
Definition status (i : nat) (doc : WebLoader.Document) : Line :=
  if chunk_fails doc then Failed (i + 1) else Ingested (i + 1).

Fixpoint statuses (i : nat) (documents : list WebLoader.Document) : list Line :=
  match documents with
  | [] => []
  | doc :: rest => status i doc :: statuses (S i) rest
  end.

End Ingest.

End GraphBuilder.

(** ** Graph retrieval, [GraphRAGChain.get_graph_context] of [src/rag_chain.py] *)

Module GraphRAGChain.

Section Retrieval.

(** Property values of a node, and [str] of a dict of them (what the
    f-string [{clean_props}] prints). *)
Variable Value : Type.
Variable dict_str : list (string * Value) -> string.

(** One row of the traversal statement. The first three fields are what
    the f-string prints for them; [target_props] is the property dict of
    the end node, in its own order. *)
Record Row := mkRow {
  row_source : string;
  row_rel_type : string;
  row_target : string;
  row_target_props : list (string * Value)
}.

(** [str.strip] of the interpreter. *)
Variable str_strip : string -> string.
(** [chain.invoke({"query": query})]: the language model's answer, [None]
    when the call raises. *)
Variable extract_entity : string -> option string.
(** [self.graph.query(cypher, {"entity": entity})]: the rows, [None] when
    the driver raises. *)
Variable graph_query : string -> option (list Row).
(** [list(set(xs))] for a list [xs] of strings: the distinct elements of
    [xs] in the order in which the set made of them is iterated. *)
Variable listing : list string -> list string.

(** [{k: v for k, v in props.items() if k not in ['id', 'type']}] *)
Definition clean_props (props : list (string * Value)) : list (string * Value) :=
  List.filter (fun kv => negb (bool_decide (fst kv ∈ ["id"; "type"]))) props.

(** Truthiness of a dict or list: empty is falsy. *)
Definition nonempty {A} (l : list A) : bool :=
  match l with
  | [] => false
  | _ :: _ => true
  end.

(** Body of [for record in result]: the fact appended to [context]. *)
Definition fact_of (record : Row) : string :=
  let fact :=
    row_source record +:+ " " +:+ row_rel_type record +:+ " " +:+ row_target record in
  let props := row_target_props record in
  if nonempty props then
    if nonempty (clean_props props)
    then fact +:+ " (Details: " +:+ dict_str (clean_props props) +:+ ")"
    else fact
  else fact.

(** [None] stands for an exception leaving [get_graph_context]. *)
Definition get_graph_context (query : string) : option string :=
  match extract_entity query with
  | None => None
  | Some answer =>
      let entity := str_strip answer in
      match graph_query entity with
      | Some result =>
          let context := List.map fact_of result in
          Some (PyStr.join (String "010" EmptyString) (listing context))
      | None => Some ""
      end
  end.

(** [vector_retriever.invoke(query)]: the retrieved chunks, [None] when the
    call raises. *)
Variable vector_retriever : string -> option (list WebLoader.Document).

Definition newline : string := String "010" EmptyString.

(** The twelve blanks that start every line of the f-string. *)
Definition margin : string := "            ".

(** [hybrid_retrieval] inside [get_chain]: the fused context. *)
Definition hybrid_retrieval (query : string) : option string :=
  match vector_retriever query with
  | None => None
  | Some vector_docs =>
      let vector_context := PyStr.join newline (List.map WebLoader.page_content vector_docs) in
      match get_graph_context query with
      | None => None
      | Some graph_context =>
          Some (newline
                +:+ margin +:+ "--- WEBSITE CONTENT ---" +:+ newline
                +:+ margin +:+ vector_context +:+ newline
                +:+ margin +:+ newline
                +:+ margin +:+ "--- DATABASE RELATIONSHIPS ---" +:+ newline
                +:+ margin +:+ graph_context +:+ newline
                +:+ margin)
      end
  end.

End Retrieval.

End GraphRAGChain.

(** ** Concrete sites, extractions and stores

    Small closed worlds on which the definitions above are evaluated. *)

Module Worlds.

Import WebLoader.

(** The host of a URL of the form [scheme://host/path]: the text after the
    first [//] up to the next [/], [?] or [#]. This is [urlparse(u).netloc]
    for the URLs below. *)
Fixpoint after_slashes (s : string) : string :=
  match s with
  | EmptyString => EmptyString
  | String c s' =>
      match s' with
      | String c' r => if Ascii.eqb c "/" && Ascii.eqb c' "/" then r else after_slashes s'
      | EmptyString => EmptyString
      end
  end.

Fixpoint upto_delim (s : string) : string :=
  match s with
  | EmptyString => EmptyString
  | String c s' =>
      if Ascii.eqb c "/" || Ascii.eqb c "?" || Ascii.eqb c "#" then EmptyString
      else String c (upto_delim s')
  end.

Definition netloc (url : string) : string := upto_delim (after_slashes url).

(** Every [href] below is an absolute URL, which [urljoin] returns as it
    is. *)
Definition urljoin (base href : string) : string := href.

Definition page (text : string) (hrefs : list string) : option Soup :=
  Some (mkSoup text (Some (Some text)) hrefs).

(** A site whose front page links to the same page twice. *)
Definition twin_site (url : string) : option Soup :=
  if String.eqb url "http://a.com/" then
    page "home" ["http://a.com/b"; "http://a.com/b"]
  else if String.eqb url "http://a.com/b" then page "b" []
  else None.

(** A site of three pages: links with a fragment, to another host, back to
    the front page and to a missing page. *)
Definition plain_site (url : string) : option Soup :=
  if String.eqb url "http://a.com/" then
    page "home" ["http://a.com/b#top"; "http://other.com/x"; "http://a.com/c"]
  else if String.eqb url "http://a.com/b" then
    page "b" ["http://a.com/"; "http://a.com/gone"]
  else if String.eqb url "http://a.com/c" then page "c" []
  else None.

(** A single page without links. *)
Definition lone_site (url : string) : option Soup :=
  if String.eqb url "http://a.com/" then page "home" [] else None.

Definition twin_load : nat -> option Outcome :=
  load netloc urljoin twin_site "http://a.com/" 2 20.

Definition plain_load : nat -> option Outcome :=
  load netloc urljoin plain_site "http://a.com/" 2 20.

(** The frame of [plain_load] after its first iteration. *)
Definition plain_frame : Frame :=
  match iteration netloc urljoin plain_site "http://a.com/" 2 20
          (entry "http://a.com/" fresh) with
  | Next f => f
  | Done _ => entry "http://a.com/" fresh
  end.

(** Chunks and their extractions. The chunk ["alice"] is the one of the
    example: two entities, with blanks around their ids, and one relationship
    between them. ["bob"] has a relationship without a target, one with an
    empty target and one whose target is blank. The relationship of
    ["carol"] has an empty type; ["noise"] is a chunk the extraction fails
    on. *)
Definition chunk (text : string) : Document := mkDocument text "http://a.com/" None.

Definition alice_acme : GraphBuilder.GraphData :=
  GraphBuilder.mkGraphData
    [GraphBuilder.mkNode " Alice" "Person"; GraphBuilder.mkNode "Acme " "Organization"]
    [GraphBuilder.mkRelationship "Alice " (Some " Acme") "works for" None].

Definition bob_absent : GraphBuilder.Relationship :=
  GraphBuilder.mkRelationship "Bob" None "knows" (Some "nobody").

Definition bob_empty : GraphBuilder.Relationship :=
  GraphBuilder.mkRelationship "Bob" (Some "") "likes" (Some "nothing").

Definition bob_alice : GraphBuilder.Relationship :=
  GraphBuilder.mkRelationship "Bob" (Some "Alice") "knows" (Some "friends").

Definition bob_blank : GraphBuilder.Relationship :=
  GraphBuilder.mkRelationship "Bob" (Some " ") "sees" None.

Definition extraction (text : string) : option GraphBuilder.GraphData :=
  if String.eqb text "alice" then Some alice_acme
  else if String.eqb text "bob" then
    Some (GraphBuilder.mkGraphData [GraphBuilder.mkNode "Bob" "Person"]
            [bob_absent; bob_alice])
  else if String.eqb text "bob, empty" then
    Some (GraphBuilder.mkGraphData [GraphBuilder.mkNode "Bob" "Person"]
            [bob_empty; bob_alice])
  else if String.eqb text "bob, plain" then
    Some (GraphBuilder.mkGraphData [GraphBuilder.mkNode "Bob" "Person"] [bob_alice])
  else if String.eqb text "carol" then
    Some (GraphBuilder.mkGraphData [GraphBuilder.mkNode "Carol" "Person"]
            [GraphBuilder.mkRelationship "Carol" (Some "Alice") "" None])
  else None.

(** A store that rejects the relationship statement with an empty label
    ([MERGE (s)-[r:]->(t)] does not parse) and accepts everything else. *)
Definition rejects (q : GraphBuilder.Cypher) : bool :=
  match q with
  | GraphBuilder.MergeRelationship _ _ label _ => negb (PyStr.nonempty label)
  | GraphBuilder.MergeEntity _ _ => false
  end.

Definition blank : GraphBuilder.World :=
  GraphBuilder.mkWorld (GraphBuilder.mkNeo4j ∅ ∅) [] [].

(** The chunks are ASCII text, on which [PyStr.strip] and [PyStr.upper] are
    the methods of [str]. *)
Definition ingest (texts : list string) (w : GraphBuilder.World) : GraphBuilder.World :=
  snd (GraphBuilder.ingest_documents PyStr.strip PyStr.upper extraction rejects
         (List.map chunk texts) w).

(** A graph with string properties. [dict_str] prints a dict of plain
    strings the way Python does; the language model answers every query
    with [" Acme "]; the traversal of ["Acme"] reaches the relationship
    between Alice and Acme twice and one with a priced target, every other
    traversal fails. *)
Definition dict_str (d : list (string * string)) : string :=
  "{" +:+ PyStr.join ", "
            (List.map (fun kv => "'" +:+ fst kv +:+ "': '" +:+ snd kv +:+ "'") d)
      +:+ "}".

Definition works_for : GraphRAGChain.Row string :=
  GraphRAGChain.mkRow string "Alice" "WORKS_FOR" "Acme"
    [("id", "Acme"); ("type", "Organization")].

Definition sells : GraphRAGChain.Row string :=
  GraphRAGChain.mkRow string "Acme" "SELLS" "Anvil"
    [("id", "Anvil"); ("price", "10"); ("type", "Product")].

Definition entity_of (query : string) : option string := Some " Acme ".

Definition traversal (entity : string) : option (list (GraphRAGChain.Row string)) :=
  if String.eqb entity "Acme" then Some [works_for; sells; works_for]
  else if String.eqb entity "Alice" then Some [works_for]
  else None.

Definition down (entity : string) : option (list (GraphRAGChain.Row string)) := None.

(** One way for a set to list its elements. *)
Definition set_listing (xs : list string) : list string :=
  elements (list_to_set xs : gset string).

(** The same facts as [traversal] finds for ["Acme"], each once and in
    another order. *)
Definition traversal_once (entity : string) : option (list (GraphRAGChain.Row string)) :=
  if String.eqb entity "Acme" then Some [sells; works_for] else None.

(** Blanks, a tab and two line boundaries. *)
Definition blank_text : string :=
  "  " +:+ String "009" (String "010" (" " +:+ String "013" (String "010" " "))).

(** Two lines with blanks around and inside, and an empty line between. *)
Definition ragged_text : string :=
  "  Alice   works for Acme " +:+ String "010" (String "013" (String "010" " Acme  sells  tea")).

(** Another order [list(set(xs))] can come in: that of first insertion. *)
Definition insertion_listing (xs : list string) : list string :=
  reverse (remove_dups (reverse xs)).

End Worlds.

(** ** The crawl, iteration by iteration

    What one pass through the loop body of [load] adds, written out, and
    what the loop keeps true. *)

Module Frontier.

Import WebLoader.

Section Frontier.

Variable netloc : string -> string.
Variable urljoin : string -> string -> string.
Variable http_get : string -> option Soup.
Variable start_url : string.
Variable max_depth : Z.
Variable max_pages : Z.

(** The documents [scrape_page] builds for a URL past its guard. *)
Definition page_docs (url : string) : list Document :=
  match http_get url with
  | Some soup =>
      [mkDocument (soup_text soup) url
         match soup_title soup with
         | Some t => t
         | None => Some "No Title"
         end]
  | None => []
  end.

(** The links [scrape_page] returns for a URL past its guard, [seen] being
    the visited set with the URL in it. *)
Definition page_new_links (url : string) (seen : gset string) : list string :=
  match http_get url with
  | Some soup => page_links netloc urljoin start_url url seen (soup_hrefs soup)
  | None => []
  end.

(** What [load] appends to its queue after a page at [depth]. *)
Definition enqueued (url : string) (depth : Z) (seen : gset string) : list (string * Z) :=
  if depth <? max_depth then
    List.map (fun link => (link, depth + 1))
      (List.filter (fun link => bool_decide (link ∉ seen)) (page_new_links url seen))
  else [].

(** The frame after the iteration that requests the head [(url, depth)] of
    the queue of [f]. *)
Definition fetch_frame (f : Frame) (url : string) (depth : Z) (rest : list (string * Z))
  : Frame :=
  let seen := {[url]} ∪ visited (self f) in
  {| self := {| visited := seen; fetched := fetched (self f) ++ [(url, depth)] |};
     queue := rest ++ enqueued url depth seen;
     all_docs := all_docs f ++ page_docs url |}.

(** The frame after the iteration that skips the head of the queue. *)
Definition skip_frame (f : Frame) (rest : list (string * Z)) : Frame :=
  {| self := self f; queue := rest; all_docs := all_docs f |}.

Definition responds (url : string) : bool := bool_decide (is_Some (http_get url)).

Definition has_no_fragment (url : string) : bool :=
  PyStr.all_chars (fun c => negb (Ascii.eqb c "#")) url.

(** A queue in two levels: items at depth [d], then items at depth
    [d + 1]. *)
Definition levelled (d : Z) (q : list (string * Z)) : Prop :=
  ∃ q1 q2, q = q1 ++ q2
           ∧ Forall (fun p => snd p = d) q1
           ∧ Forall (fun p => snd p = d + 1) q2.

(** Loop invariant: no URL was requested twice, and the documents are those
    of the requests that were answered, in the order of the requests. *)
Definition one_request_each (f : Frame) : Prop :=
  NoDup (List.map fst (fetched (self f)))
  ∧ (∀ url, url ∈ visited (self f) ↔ url ∈ List.map fst (fetched (self f)))
  ∧ List.map source (all_docs f)
    = List.filter responds (List.map fst (fetched (self f))).

(** Loop invariant: the queue is in two levels, no deeper than what was
    requested so far allows, and the requests went out by rising depth. *)
Definition breadth_first (f : Frame) : Prop :=
  ∃ d, 0 <= d
       ∧ levelled d (queue f)
       ∧ Forall (fun p => snd p <= d) (fetched (self f))
       ∧ StronglySorted Z.le (List.map snd (fetched (self f))).

(** Loop invariant: depths in the queue stay between zero and
    [max_depth]. *)
Definition depths_in_range (f : Frame) : Prop :=
  Forall (fun p => 0 <= snd p <= max_depth) (queue f).

(** Loop invariant: apart from the seed, no URL in the queue or requested so
    far carries a fragment. *)
Definition fragment_free (f : Frame) : Prop :=
  Forall (fun p => fst p = start_url ∨ has_no_fragment (fst p) = true) (queue f)
  ∧ Forall (fun p => fst p = start_url ∨ has_no_fragment (fst p) = true)
      (fetched (self f)).

End Frontier.

End Frontier.

(** ** Text cleaning, [WebLoader.clean_text] of [src/web_loader.py]

    The part of [clean_text] that works on the string [soup.get_text()]
    returns, once the script, style and navigation elements are removed;
    that string is the argument here.  The model is that of ASCII text:
    [str.splitlines] and [str.strip] know further line boundaries and
    whitespace beyond ASCII (NEL, NBSP, the Unicode separators), so the
    theorems on [clean_text] are stated for text with [PyStr.is_ascii]. *)

Module CleanText.

(** The line boundaries of [str.splitlines] among the ASCII characters: LF,
    VT, FF, CR, FS, GS and RS. *)
Definition is_linebreak (c : ascii) : bool :=
  let n := nat_of_ascii c in
  ((10 <=? n)%nat && (n <=? 13)%nat) || ((28 <=? n)%nat && (n <=? 30)%nat).

(** Put a character in front of the first string of a list. *)
Definition cons_head (c : ascii) (l : list string) : list string :=
  match l with
  | [] => [String c EmptyString]
  | x :: xs => String c x :: xs
  end.

(** [s.splitlines()]: the lines without their boundaries; CR LF is one
    boundary; there is no empty last line after a final boundary. *)
Fixpoint splitlines (s : string) : list string :=
  match s with
  | EmptyString => []
  | String c s' =>
      if is_linebreak c then
        EmptyString ::
          match s' with
          | String c' s'' =>
              if Ascii.eqb c "013" && Ascii.eqb c' "010" then splitlines s''
              else splitlines s'
          | EmptyString => []
          end
      else cons_head c (splitlines s')
  end.

(** [s.split("  ")]: the pieces between the occurrences of two blanks, taken
    from the left without overlap. *)
Fixpoint split_double_space (s : string) : list string :=
  match s with
  | EmptyString => [EmptyString]
  | String c s' =>
      match s' with
      | String c' s'' =>
          if Ascii.eqb c " " && Ascii.eqb c' " " then EmptyString :: split_double_space s''
          else cons_head c (split_double_space s')
      | EmptyString => [String c EmptyString]
      end
  end.

(** The generator [chunks], with the empty ones already left out. *)
Definition clean_chunks (text : string) : list string :=
  let lines := List.map PyStr.strip (splitlines text) in
  let chunks :=
    List.flat_map (fun line => List.map PyStr.strip (split_double_space line)) lines in
  List.filter PyStr.nonempty chunks.

Definition clean_text (text : string) : string :=
  PyStr.join (String "010" EmptyString) (clean_chunks text).

(** No two blanks in a row. *)
Fixpoint no_double_space (s : string) : bool :=
  match s with
  | EmptyString => true
  | String c s' =>
      match s' with
      | String c' _ => negb (Ascii.eqb c " " && Ascii.eqb c' " ") && no_double_space s'
      | EmptyString => true
      end
  end.

(** A line as [clean_text] leaves it: not empty, no whitespace at either
    end, no line boundary, no two blanks in a row. *)
Definition tidy (s : string) : Prop :=
  PyStr.nonempty s = true
  ∧ PyStr.starts_with_space s = false
  ∧ PyStr.ends_with_space s = false
  ∧ PyStr.all_chars (fun c => negb (is_linebreak c)) s = true
  ∧ no_double_space s = true.

End CleanText.

(** ** What the store keeps true *)

Module StoreInvariants.

Import GraphBuilder.

Section Normal.

Variable str_strip : string -> string.
Variable str_upper : string -> string.

(** The label the loop derives from a relationship type. *)
Definition label_of (type : string) : string :=
  PyStr.replace " " "_" (str_upper type).

Definition has_no_space (s : string) : bool :=
  PyStr.all_chars (fun c => negb (Ascii.eqb c " ")) s.

(** Every relationship of the store has both of its ends in the store. *)
Definition well_linked (db : Neo4j) : Prop :=
  ∀ source label target,
    is_Some (edges db !! (source, label, target)) ->
    is_Some (entities db !! source) ∧ is_Some (entities db !! target).

(** Every id of the store is left as it is by [str_strip], and no label
    holds a blank. *)
Definition normalized (db : Neo4j) : Prop :=
  (∀ id, is_Some (entities db !! id) -> str_strip id = id)
  ∧ (∀ source label target,
       is_Some (edges db !! (source, label, target)) ->
       str_strip source = source ∧ str_strip target = target
       ∧ has_no_space label = true).

Definition statement_normal (q : Cypher) : Prop :=
  match q with
  | MergeEntity id _ => str_strip id = id
  | MergeRelationship source target label _ =>
      str_strip source = source ∧ str_strip target = target
      ∧ has_no_space label = true
  end.

End Normal.

End StoreInvariants.

(** ** Node styling, [visualize_graph] of [src/visualizer.py] *)

Module Visualizer.

(** The dict [color_map]. *)
Definition color_map : gmap string string :=
  <["Organization" := "#ff5733"]>
    (<["Brand" := "#ff5733"]>
       (<["Product" := "#3380ff"]>
          (<["Material" := "#28a745"]>
             (<["Color" := "#ffc107"]>
                (<["Feature" := "#6c757d"]>
                   (<["Location" := "#6f42c1"]> ∅)))))).

Definition default_color : string := "#97c2fc".

(** [labels[0] if labels else "Unknown"] *)
Definition group_of (labels : list string) : string :=
  match labels with
  | l :: _ => l
  | [] => "Unknown"
  end.

(** [color_map.get(group, default_color)] *)
Definition node_color (group : string) : string :=
  default default_color (color_map !! group).

(** [25 if group in ["Organization", "Brand"] else 15] *)
Definition node_size (group : string) : Z :=
  if bool_decide (group ∈ ["Organization"; "Brand"]) then 25 else 15.

End Visualizer.

(** * Properties *)

(** ** The crawler *)

Section CrawlFacts.

Import WebLoader.

Variable netloc : string -> string.
Variable urljoin : string -> string -> string.
Variable http_get : string -> option Soup.
Variable start_url : string.
Variable max_depth max_pages : Z.

Local Abbreviation base_domain := (base_domain netloc start_url).
Local Abbreviation scrape_page := (scrape_page netloc urljoin http_get start_url max_pages).
Local Abbreviation iteration :=
  (iteration netloc urljoin http_get start_url max_depth max_pages).
Local Abbreviation run := (run netloc urljoin http_get start_url max_depth max_pages).
Local Abbreviation load := (load netloc urljoin http_get start_url max_depth max_pages).
Local Abbreviation reachable :=
  (reachable netloc urljoin http_get start_url max_depth max_pages).
Local Abbreviation on_seed_host := (on_seed_host netloc start_url).
Local Abbreviation within_bounds := (within_bounds max_depth max_pages).

(** The guard of [scrape_page]: the empty list, and the loader untouched. *)
Lemma scrape_page_guarded url depth l :
  url ∈ visited l ∨ max_pages <= Z.of_nat (size (visited l)) ->
  scrape_page url depth l = (EmptyList, l).
Proof.
  intros H. unfold WebLoader.scrape_page.
  destruct (bool_decide (url ∈ visited l)) eqn:Hin; [reflexivity|].
  apply bool_decide_eq_false in Hin.
  destruct H as [H|H]; [contradiction|].
  apply Z.leb_le in H. rewrite H. reflexivity.
Qed.

(** Past the guard: the URL is marked and requested, and whatever happens
    to the request a pair comes back, of at most one document, about this
    URL, and of links on the seed's host. *)
Lemma scrape_page_fetches url depth l :
  url ∉ visited l -> Z.of_nat (size (visited l)) < max_pages ->
  ∃ docs links,
    scrape_page url depth l =
      (Pair docs links,
       {| visited := {[url]} ∪ visited l; fetched := fetched l ++ [(url, depth)] |})
    ∧ Forall (fun d => source d = url) docs
    ∧ Forall (fun link => netloc link = base_domain) links.
Proof.
  intros Hin Hlt. unfold WebLoader.scrape_page.
  rewrite bool_decide_eq_false_2 by assumption.
  replace (max_pages <=? Z.of_nat (size (visited l))) with false
    by (symmetry; apply Z.leb_gt; assumption).
  cbn [orb]. destruct (http_get url) as [soup|].
  - eexists _, _. split; [reflexivity|]. split.
    + repeat constructor.
    + unfold page_links. apply List.Forall_forall. intros link Hl.
      apply List.filter_In in Hl. destruct Hl as [_ Hl].
      apply andb_true_iff in Hl. destruct Hl as [Hl _].
      unfold is_same_domain in Hl. apply bool_decide_eq_true in Hl. exact Hl.
  - eexists _, _. split; [reflexivity|]. split; constructor.
Qed.

(** What one iteration that stays in the loop did. *)
Lemma iteration_Next f f' :
  iteration f = Next f' ->
  ∃ url depth rest,
    queue f = (url, depth) :: rest
    ∧ Z.of_nat (size (visited (self f))) < max_pages
    ∧ ((max_depth < depth
        ∧ f' = {| self := self f; queue := rest; all_docs := all_docs f |})
       ∨ (depth <= max_depth ∧ (url ∉ visited (self f))
          ∧ ∃ docs links extra,
              self f' = {| visited := {[url]} ∪ visited (self f);
                           fetched := fetched (self f) ++ [(url, depth)] |}
              ∧ all_docs f' = all_docs f ++ docs
              ∧ queue f' = rest ++ extra
              ∧ Forall (fun d => source d = url) docs
              ∧ Forall (fun link => netloc link = base_domain) links
              ∧ Forall (fun p => fst p ∈ links ∧ snd p = depth + 1
                                 ∧ depth < max_depth) extra)).
Proof.
  unfold WebLoader.iteration. destruct (queue f) as [|[url depth] rest] eqn:Hq; [discriminate|].
  destruct (Z.of_nat (size (visited (self f))) <? max_pages) eqn:Hlt; [|discriminate].
  apply Z.ltb_lt in Hlt. intros H. exists url, depth, rest.
  split; [reflexivity|]. split; [assumption|].
  destruct (depth >? max_depth) eqn:Hd.
  - left. injection H as <-. split; [lia|reflexivity].
  - right. assert (depth <= max_depth) as Hle by lia. split; [assumption|].
    destruct (decide (url ∈ visited (self f))) as [Hin|Hin].
    + rewrite scrape_page_guarded in H by (left; assumption). discriminate.
    + split; [assumption|].
      destruct (scrape_page_fetches url depth (self f) Hin Hlt)
        as (docs & links & Hs & Hdocs & Hlinks).
      rewrite Hs in H. cbn [unpack] in H. injection H as <-. cbn.
      exists docs, links. destruct (depth <? max_depth) eqn:Hdd.
      * eexists. repeat split; try reflexivity; try assumption.
        apply List.Forall_forall. intros p Hp. apply List.in_map_iff in Hp.
        destruct Hp as (link & <- & Hl). apply List.filter_In in Hl.
        cbn. repeat split; [apply list_elem_of_In; tauto | lia].
      * exists []. rewrite List.app_nil_r. repeat split; try assumption. constructor.
Qed.

(** A dequeued URL that is already visited makes the unpacking in [load]
    fail, whatever the rest of the frontier is. *)
Lemma iteration_visited_raises f url depth rest :
  queue f = (url, depth) :: rest ->
  Z.of_nat (size (visited (self f))) < max_pages ->
  depth <= max_depth ->
  url ∈ visited (self f) ->
  iteration f = Done ValueError.
Proof.
  intros Hq Hlt Hd Hin. unfold WebLoader.iteration. rewrite Hq.
  replace (Z.of_nat (size (visited (self f))) <? max_pages) with true
    by (symmetry; apply Z.ltb_lt; assumption).
  replace (depth >? max_depth) with false by lia.
  rewrite scrape_page_guarded by (left; assumption). reflexivity.
Qed.

(** A dequeued item deeper than [max_depth] is skipped: nothing is
    requested, no document is added, nothing is enqueued. *)
Lemma iteration_too_deep f url depth rest :
  queue f = (url, depth) :: rest ->
  Z.of_nat (size (visited (self f))) < max_pages ->
  max_depth < depth ->
  iteration f = Next {| self := self f; queue := rest; all_docs := all_docs f |}.
Proof.
  intros Hq Hlt Hd. unfold WebLoader.iteration. rewrite Hq.
  replace (Z.of_nat (size (visited (self f))) <? max_pages) with true
    by (symmetry; apply Z.ltb_lt; assumption).
  replace (depth >? max_depth) with true by lia. reflexivity.
Qed.

(** With the page cap reached the loop ends and [load] returns what it
    has. *)
Lemma iteration_cap_reached f :
  max_pages <= Z.of_nat (size (visited (self f))) ->
  iteration f = Done (Returned (all_docs f)).
Proof.
  intros Hcap. unfold WebLoader.iteration. destruct (queue f) as [|[url depth] rest]; [reflexivity|].
  replace (Z.of_nat (size (visited (self f))) <? max_pages) with false by lia.
  reflexivity.
Qed.

Lemma iteration_Done_Returned f docs :
  iteration f = Done (Returned docs) -> docs = all_docs f.
Proof.
  unfold WebLoader.iteration. destruct (queue f) as [|[url depth] rest].
  - intros [= <-]. reflexivity.
  - destruct (_ <? max_pages).
    + destruct (depth >? max_depth); [discriminate|].
      destruct (scrape_page _ _ _) as [r l]. destruct (unpack r) as [[? ?]|]; discriminate.
    + intros [= <-]. reflexivity.
Qed.

(** More fuel never changes an answer. *)
Lemma run_more_fuel n m f o : run n f = Some o -> (n <= m)%nat -> run m f = Some o.
Proof.
  revert m f. induction n as [|n IH]; intros m f H Hle; [discriminate|].
  destruct m as [|m]; [lia|]. cbn in *.
  destruct (iteration f); [|assumption]. apply IH; [assumption|lia].
Qed.

(** The loop ends: every iteration either uses up one unit of the page
    budget or shortens the frontier with the budget unchanged. *)
Lemma run_terminates_budget (budget : nat) :
  ∀ (len : nat) f,
    (Z.to_nat (max_pages - Z.of_nat (size (visited (self f)))) <= budget)%nat ->
    (List.length (queue f) <= len)%nat ->
    ∃ fuel o, run fuel f = Some o.
Proof.
  induction budget as [|budget IHb]; induction len as [|len IHl]; intros f Hb Hl;
    destruct (iteration f) as [f'|o] eqn:Hit;
    try (exists 1%nat, o; cbn; rewrite Hit; reflexivity);
    destruct (iteration_Next _ _ Hit)
      as (url & depth & rest & Hq & Hlt & [[Hd ->]|(Hd & Hin & docs & links & extra & Hs & _)]);
    try lia; try (rewrite Hq in Hl; cbn in Hl; lia).
  - destruct (IHl {| self := self f; queue := rest; all_docs := all_docs f |})
      as (fuel & o & Hrun); cbn; [assumption | rewrite Hq in Hl; cbn in Hl; lia |].
    exists (S fuel), o. cbn. rewrite Hit. assumption.
  - destruct (IHb (List.length (queue f')) f') as (fuel & o & Hrun); [|lia|].
    + rewrite Hs. cbn. rewrite size_union by (apply disjoint_singleton_l; assumption). rewrite size_singleton. lia.
    + exists (S fuel), o. cbn. rewrite Hit. assumption.
Qed.

Lemma run_terminates f : ∃ fuel o, run fuel f = Some o.
Proof. eapply run_terminates_budget; reflexivity. Qed.

Lemma on_seed_host_entry l : on_seed_host (entry start_url l).
Proof. split; cbn; repeat constructor. Qed.

Lemma on_seed_host_iteration f f' :
  on_seed_host f -> iteration f = Next f' -> on_seed_host f'.
Proof.
  intros [Hq Hd] Hit.
  destruct (iteration_Next _ _ Hit)
    as (url & depth & rest & Hqf & _ & [[_ ->]|(_ & _ & docs & links & extra & _ & Hdocs' & Hq' & Hdocs & Hlinks & Hextra)]).
  - rewrite Hqf in Hq. apply List.Forall_cons_iff in Hq. split; cbn; tauto.
  - rewrite Hqf in Hq. apply List.Forall_cons_iff in Hq. destruct Hq as [Hurl Hrest].
    split.
    + rewrite Hq'. apply List.Forall_app. split; [assumption|].
      rewrite List.Forall_forall in *. intros p Hp. destruct (Hextra p Hp) as (Hin & _).
      apply Hlinks. apply list_elem_of_In. assumption.
    + rewrite Hdocs'. apply List.Forall_app. split; [assumption|].
      rewrite List.Forall_forall in *. intros d Hdin. rewrite (Hdocs d Hdin). assumption.
Qed.

Lemma run_on_seed_host fuel :
  ∀ f docs, on_seed_host f -> run fuel f = Some (Returned docs) ->
            Forall (fun d => netloc (source d) = base_domain) docs.
Proof.
  induction fuel as [|fuel IH]; intros f docs Hinv Hrun; [discriminate|].
  cbn in Hrun. destruct (iteration f) as [f'|o] eqn:Hit.
  - eapply IH; [|eassumption]. eapply on_seed_host_iteration; eassumption.
  - injection Hrun as ->. apply iteration_Done_Returned in Hit. subst docs. apply Hinv.
Qed.

Lemma within_bounds_iteration f f' :
  within_bounds (self f) -> iteration f = Next f' ->
  within_bounds (self f') ∧ visited (self f) ⊆ visited (self f').
Proof.
  intros (Hsize & Hdepth & Hlog) Hit.
  destruct (iteration_Next _ _ Hit)
    as (url & depth & rest & Hqf & Hlt & [[_ ->]|(Hd & Hin & docs & links & extra & Hs & _)]).
  - cbn. split; [|reflexivity]. split; [assumption|]. split; assumption.
  - rewrite Hs. unfold WebLoader.within_bounds. cbn. split; [|apply union_subseteq_r]. split; [|split].
    + rewrite size_union by (apply disjoint_singleton_l; assumption). rewrite size_singleton. lia.
    + apply List.Forall_app. split; [assumption|]. repeat constructor. assumption.
    + intros u. rewrite List.map_app. cbn.
      rewrite elem_of_app, elem_of_union, <- Hlog, list_elem_of_singleton, elem_of_singleton.
      tauto.
Qed.

(** C7. At every frame the loop of a crawl passes through, the visited set
    holds at most [max_pages] URLs (for a page cap that is not negative),
    every request issued so far was for a frontier item of depth at most
    [max_depth], the requested URLs are exactly the visited ones, and the
    next iteration only adds to the visited set. *)
Theorem crawl_within_bounds f :
  0 <= max_pages ->
  reachable f ->
  Z.of_nat (size (visited (self f))) <= max_pages
  ∧ Forall (fun p => snd p <= max_depth) (fetched (self f))
  ∧ (∀ url, url ∈ visited (self f) ↔ url ∈ List.map fst (fetched (self f)))
  ∧ (∀ f', iteration f = Next f' ->
           visited (self f) ⊆ visited (self f')
           ∧ Z.of_nat (size (visited (self f'))) <= max_pages).
Proof.
  intros Hcap Hreach.
  assert (within_bounds (self f)) as Hinv.
  { induction Hreach as [|f f' _ IH Hit].
    - unfold WebLoader.within_bounds. cbn. rewrite size_empty. split; [lia|].
      split; [constructor|]. intros url. rewrite elem_of_empty, elem_of_nil. tauto.
    - apply (within_bounds_iteration f f' IH Hit). }
  destruct Hinv as (Hsize & Hdepth & Hlog).
  split; [assumption|]. split; [assumption|]. split; [assumption|].
  intros f' Hit.
  destruct (within_bounds_iteration f f' (conj Hsize (conj Hdepth Hlog)) Hit)
    as [(Hsize' & _) Hsub].
  split; assumption.
Qed.

Lemma reachable_on_seed_host f : reachable f -> on_seed_host f.
Proof.
  induction 1 as [|f f' _ IH Hit].
  - apply on_seed_host_entry.
  - eapply on_seed_host_iteration; eassumption.
Qed.

(** C8. [load] always comes to an end, every document of a list it returns
    has a source URL whose host is the host of the seed URL, and at every
    point of the loop the frontier holds URLs of that host only. *)
Theorem load_same_host :
  (∃ fuel o, load fuel = Some o)
  ∧ (∀ fuel docs, load fuel = Some (Returned docs) ->
       Forall (fun d => netloc (source d) = netloc start_url) docs)
  ∧ (∀ f, reachable f ->
       Forall (fun p => netloc (fst p) = netloc start_url) (queue f)).
Proof.
  split; [|split].
  - apply run_terminates.
  - intros fuel docs Hload. eapply run_on_seed_host; [|exact Hload].
    apply on_seed_host_entry.
  - intros f Hreach. apply (reachable_on_seed_host f Hreach).
Qed.

End CrawlFacts.

(** C7 on the second frame of the three-page site. *)
Lemma crawl_within_bounds_witness :
  Z.of_nat (size (WebLoader.visited (WebLoader.self Worlds.plain_frame))) <= 20
  ∧ Forall (fun p => snd p <= 2) (WebLoader.fetched (WebLoader.self Worlds.plain_frame))
  ∧ (∀ url, url ∈ WebLoader.visited (WebLoader.self Worlds.plain_frame)
            ↔ url ∈ List.map fst (WebLoader.fetched (WebLoader.self Worlds.plain_frame)))
  ∧ (∀ f', WebLoader.iteration Worlds.netloc Worlds.urljoin Worlds.plain_site
               "http://a.com/" 2 20 Worlds.plain_frame = WebLoader.Next f' ->
           WebLoader.visited (WebLoader.self Worlds.plain_frame)
             ⊆ WebLoader.visited (WebLoader.self f')
           ∧ Z.of_nat (size (WebLoader.visited (WebLoader.self f'))) <= 20).
Proof.
  apply (crawl_within_bounds Worlds.netloc Worlds.urljoin Worlds.plain_site
           "http://a.com/" 2 20 Worlds.plain_frame).
  - lia.
  - eapply WebLoader.reach_next; [apply WebLoader.reach_entry | vm_compute; reflexivity].
Defined.

(** C8 on the three-page site: the three documents [load] returns. *)
Lemma load_same_host_witness :
  Forall (fun d => Worlds.netloc (WebLoader.source d) = Worlds.netloc "http://a.com/")
    [WebLoader.mkDocument "home" "http://a.com/" (Some "home");
     WebLoader.mkDocument "b" "http://a.com/b" (Some "b");
     WebLoader.mkDocument "c" "http://a.com/c" (Some "c")].
Proof.
  apply (proj1 (proj2 (load_same_host Worlds.netloc Worlds.urljoin Worlds.plain_site
                         "http://a.com/" 2 20)) 10%nat).
  vm_compute. reflexivity.
Defined.

(** C1. On a site whose front page carries two links to one page, the second
    copy of the link is dequeued after the page was visited; [scrape_page]
    answers with its empty list, the unpacking in [load] raises, and [load]
    never returns a document list. *)
Theorem load_twin_links_raises :
  Worlds.twin_load 3 = Some WebLoader.ValueError
  ∧ ∀ fuel docs, Worlds.twin_load fuel <> Some (WebLoader.Returned docs).
Proof.
  assert (Worlds.twin_load 3 = Some WebLoader.ValueError) as H3
    by (vm_compute; reflexivity).
  split; [exact H3|]. intros fuel docs Hret.
  destruct (Nat.le_ge_cases fuel 3) as [Hle|Hge].
  - unfold Worlds.twin_load, WebLoader.load in *.
    rewrite (run_more_fuel _ _ _ _ _ _ _ _ _ _ Hret Hle) in H3. discriminate.
  - unfold Worlds.twin_load, WebLoader.load in *.
    rewrite (run_more_fuel _ _ _ _ _ _ _ _ _ _ H3 Hge) in Hret. discriminate.
Qed.

(** ** The knowledge-graph builder *)

Section IngestFacts.

Import GraphBuilder.

Variable str_strip str_upper : string -> string.
Variable extract_graph_data : string -> option GraphData.
Variable query_raises : Cypher -> bool.

Local Abbreviation graph_query := (graph_query query_raises).
Local Abbreviation create_relationship :=
  (create_relationship str_strip str_upper query_raises).
Local Abbreviation create_node := (create_node str_strip query_raises).
Local Abbreviation ingest_chunk :=
  (ingest_chunk str_strip str_upper extract_graph_data query_raises).
Local Abbreviation ingest_from :=
  (ingest_from str_strip str_upper extract_graph_data query_raises).
Local Abbreviation ingest_documents :=
  (ingest_documents str_strip str_upper extract_graph_data query_raises).
Local Abbreviation node_statement := (GraphBuilder.node_statement str_strip).
Local Abbreviation relationship_statement :=
  (GraphBuilder.relationship_statement str_strip str_upper).
Local Abbreviation statements := (GraphBuilder.statements str_strip str_upper).
Local Abbreviation sent := (sent query_raises).
Local Abbreviation accepted := (accepted query_raises).
Local Abbreviation chunk_statements :=
  (chunk_statements str_strip str_upper extract_graph_data).
Local Abbreviation chunk_fails :=
  (chunk_fails str_strip str_upper extract_graph_data query_raises).
Local Abbreviation sent_for :=
  (sent_for str_strip str_upper extract_graph_data query_raises).
Local Abbreviation accepted_for :=
  (accepted_for str_strip str_upper extract_graph_data query_raises).
Local Abbreviation status := (status str_strip str_upper extract_graph_data query_raises).
Local Abbreviation statuses :=
  (statuses str_strip str_upper extract_graph_data query_raises).

Lemma world_eta w : {| graph := graph w; issued := issued w; printed := printed w |} = w.
Proof. destruct w. reflexivity. Qed.

(** Sending a list of statements one after the other: the store executes
    the ones before the first rejected statement, which is the last one it
    sees. *)
Lemma for_each_graph_query qs :
  ∀ w, for_each graph_query qs w =
         (if existsb query_raises qs then Raised else Ok tt,
          {| graph := execute_all (accepted qs) (graph w);
             issued := issued w ++ sent qs;
             printed := printed w |}).
Proof.
  induction qs as [|q qs IH]; intros w.
  - cbn. rewrite List.app_nil_r, world_eta. reflexivity.
  - cbn [for_each]. unfold mbind, M_bind. unfold GraphBuilder.graph_query at 1.
    cbn [existsb GraphBuilder.sent GraphBuilder.accepted].
    destruct (query_raises q); cbn [orb].
    + reflexivity.
    + rewrite IH. cbn. rewrite <- List.app_assoc. reflexivity.
Qed.

Lemma for_each_create_node ns :
  ∀ w, for_each create_node ns w = for_each graph_query (List.map node_statement ns) w.
Proof.
  induction ns as [|n ns IH]; intros w; [reflexivity|].
  cbn [for_each List.map]. unfold mbind, M_bind.
  change (create_node n w) with (graph_query (node_statement n) w).
  destruct (graph_query (node_statement n) w) as [[[]|] w']; [apply IH|reflexivity].
Qed.

(** The description sent: the supplied one, the empty string without one. *)
Lemma description_default (o : option string) :
  match o with
  | Some d => if PyStr.nonempty d then d else ""
  | None => ""
  end = default "" o.
Proof. destruct o as [[|c d]|]; reflexivity. Qed.

Lemma create_relationship_statement rel w :
  create_relationship rel w =
    match relationship_statement rel with
    | Some q => graph_query q w
    | None => (Ok tt, w)
    end.
Proof.
  unfold GraphBuilder.create_relationship, GraphBuilder.relationship_statement.
  destruct (rel_target rel) as [[|c t]|]; try reflexivity.
  cbn [PyStr.nonempty negb]. rewrite description_default. reflexivity.
Qed.

Lemma for_each_create_relationship rs :
  ∀ w, for_each create_relationship rs w
       = for_each graph_query (omap relationship_statement rs) w.
Proof.
  induction rs as [|r rs IH]; intros w; [reflexivity|].
  cbn [for_each omap list_omap]. unfold mbind at 1, M_bind at 1.
  rewrite create_relationship_statement.
  destruct (relationship_statement r) as [q|].
  - cbn [for_each]. unfold mbind, M_bind.
    destruct (graph_query q w) as [[[]|] w']; [apply IH|reflexivity].
  - apply IH.
Qed.

Lemma for_each_app {A} (body : A -> M unit) xs ys :
  ∀ w, for_each body (xs ++ ys) w = (_ ← for_each body xs; for_each body ys) w.
Proof.
  induction xs as [|x xs IH]; intros w; [reflexivity|].
  cbn [for_each app]. unfold mbind, M_bind in *.
  destruct (body x w) as [[[]|] w']; [apply IH|reflexivity].
Qed.

(** The two loops of a chunk send the list [statements]. *)
Lemma chunk_loops data w :
  (_ ← for_each create_node (nodes data);
   for_each create_relationship (relationships data)) w
  = for_each graph_query (statements data) w.
Proof.
  unfold GraphBuilder.statements. rewrite for_each_app. unfold mbind, M_bind.
  rewrite for_each_create_node.
  destruct (for_each graph_query (List.map node_statement (nodes data)) w) as [[[]|] w'];
    [apply for_each_create_relationship|reflexivity].
Qed.

(** The [try] block of one chunk: it raises when the extraction raises or a
    statement is rejected, and otherwise prints its success line. *)
Lemma ingest_chunk_spec i doc w :
  ingest_chunk i doc w =
    match extract_graph_data (WebLoader.page_content doc) with
    | None => (Raised, w)
    | Some data =>
        let w' := {| graph := execute_all (accepted (statements data)) (graph w);
                     issued := issued w ++ sent (statements data);
                     printed := printed w |} in
        if existsb query_raises (statements data) then (Raised, w')
        else (Ok tt, {| graph := graph w'; issued := issued w';
                        printed := printed w ++ [Ingested (i + 1)] |})
    end.
Proof.
  unfold GraphBuilder.ingest_chunk, extract. unfold mbind at 1, M_bind at 1.
  destruct (extract_graph_data (WebLoader.page_content doc)) as [data|]; [|reflexivity].
  pose proof (chunk_loops data w) as Hloops. unfold mbind, M_bind in *.
  rewrite for_each_graph_query in Hloops.
  destruct (for_each create_node (nodes data) w) as [[[]|] w1].
  - rewrite Hloops. destruct (existsb query_raises (statements data)); reflexivity.
  - injection Hloops as Hr ->. destruct (existsb query_raises (statements data));
      [reflexivity|discriminate].
Qed.

(** One chunk with its handler: no exception is left, the statements up to
    the first rejected one were sent and the ones before it executed, and one
    status line was printed. *)
Lemma try_ingest_chunk i doc w :
  try_except (ingest_chunk i doc) (print (Failed (i + 1))) w =
    (Ok tt,
     {| graph := execute_all (accepted (chunk_statements doc)) (graph w);
        issued := issued w ++ sent (chunk_statements doc);
        printed := printed w ++ [status i doc] |}).
Proof.
  unfold try_except. rewrite ingest_chunk_spec.
  unfold GraphBuilder.status, GraphBuilder.chunk_statements, GraphBuilder.chunk_fails.
  destruct (extract_graph_data (WebLoader.page_content doc)) as [data|].
  - cbn. destruct (existsb query_raises (statements data)); reflexivity.
  - cbn. rewrite List.app_nil_r. reflexivity.
Qed.

(** The whole loop. *)
Lemma ingest_from_spec documents :
  ∀ i w, ingest_from i documents w =
           (Ok tt,
            {| graph := execute_all (accepted_for documents) (graph w);
               issued := issued w ++ sent_for documents;
               printed := printed w ++ statuses i documents |}).
Proof.
  induction documents as [|doc rest IH]; intros i w.
  - cbn. rewrite !List.app_nil_r, world_eta. reflexivity.
  - cbn [GraphBuilder.ingest_from]. unfold mbind, M_bind.
    rewrite try_ingest_chunk, IH. cbn.
    unfold execute_all. rewrite List.fold_left_app, <- !List.app_assoc. reflexivity.
Qed.

(** *** Idempotence of the merges *)

Lemma assign_union {K V} `{Countable K} (kvs : list (K * V)) :
  ∀ m : gmap K V, assign kvs m = list_to_map (reverse kvs) ∪ m.
Proof.
  induction kvs as [|[k v] kvs IH]; intros m.
  - cbn. rewrite (left_id_L ∅ (∪)). reflexivity.
  - change (assign ((k, v) :: kvs) m) with (assign kvs (<[k:=v]> m)). rewrite IH.
    rewrite reverse_cons, list_to_map_app, <- (assoc_L (∪)).
    cbn. rewrite <- insert_union_l, (left_id_L ∅ (∪)). reflexivity.
Qed.

(** Running a list of assignments a second time changes nothing. *)
Lemma assign_twice {K V} `{Countable K} (kvs : list (K * V)) (m : gmap K V) :
  assign kvs (assign kvs m) = assign kvs m.
Proof.
  rewrite !assign_union, (assoc_L (∪)), (idemp_L (∪)). reflexivity.
Qed.

Lemma execute_all_entity_merges qs :
  ∀ db, forallb is_entity_merge qs = true ->
        execute_all qs db =
          {| entities := assign (omap entity_assignment qs) (entities db);
             edges := edges db |}.
Proof.
  induction qs as [|q qs IH]; intros db Hall.
  - destruct db. reflexivity.
  - cbn in Hall. apply andb_true_iff in Hall. destruct Hall as [Hq Hall].
    destruct q; [|discriminate]. cbn. fold (execute_all qs). rewrite IH by assumption.
    reflexivity.
Qed.

Lemma execute_all_relationship_merges qs :
  ∀ db, forallb (fun q => negb (is_entity_merge q)) qs = true ->
        execute_all qs db =
          {| entities := entities db;
             edges := assign (omap (edge_assignment (entities db)) qs) (edges db) |}.
Proof.
  induction qs as [|q qs IH]; intros db Hall.
  - destruct db. reflexivity.
  - cbn in Hall. apply andb_true_iff in Hall. destruct Hall as [Hq Hall].
    destruct q as [|source target label description]; [discriminate|].
    cbn [execute_all fold_left]. fold (execute_all qs). rewrite IH by assumption.
    cbn [omap list_omap edge_assignment execute].
    destruct (bool_decide (is_Some (entities db !! source))
              && bool_decide (is_Some (entities db !! target))); reflexivity.
Qed.

(** Entity merges followed by relationship merges, run twice, leave the
    store as after the first run. *)
Lemma execute_all_staged_twice ns rs db :
  forallb is_entity_merge ns = true ->
  forallb (fun q => negb (is_entity_merge q)) rs = true ->
  execute_all (ns ++ rs) (execute_all (ns ++ rs) db) = execute_all (ns ++ rs) db.
Proof.
  intros Hns Hrs. unfold execute_all. rewrite !List.fold_left_app.
  fold (execute_all ns db). fold (execute_all rs (execute_all ns db)).
  fold (execute_all ns (execute_all rs (execute_all ns db))).
  fold (execute_all rs (execute_all ns (execute_all rs (execute_all ns db)))).
  rewrite (execute_all_entity_merges ns db Hns).
  rewrite (execute_all_relationship_merges rs _ Hrs). cbn [entities edges].
  rewrite (execute_all_entity_merges ns _ Hns). cbn [entities edges].
  rewrite (execute_all_relationship_merges rs _ Hrs). cbn [entities edges].
  rewrite !assign_twice. reflexivity.
Qed.

Lemma accepted_forallb (P : Cypher -> bool) qs :
  forallb P qs = true -> forallb P (accepted qs) = true.
Proof.
  induction qs as [|q qs IH]; [reflexivity|]. cbn. intros Hall.
  apply andb_true_iff in Hall. destruct Hall as [Hq Hall].
  destruct (query_raises q); [reflexivity|]. cbn. rewrite Hq, IH by assumption. reflexivity.
Qed.

(** What is executed of a staged list is staged. *)
Lemma accepted_staged ns rs :
  forallb is_entity_merge ns = true ->
  forallb (fun q => negb (is_entity_merge q)) rs = true ->
  ∃ ns' rs', accepted (ns ++ rs) = ns' ++ rs'
             ∧ forallb is_entity_merge ns' = true
             ∧ forallb (fun q => negb (is_entity_merge q)) rs' = true.
Proof.
  intros Hns Hrs. induction ns as [|q ns IH].
  - exists [], (accepted rs). split; [reflexivity|]. split; [reflexivity|].
    apply accepted_forallb. assumption.
  - cbn in Hns. apply andb_true_iff in Hns. destruct Hns as [Hq Hns].
    cbn. destruct (query_raises q).
    + exists [], []. repeat split.
    + destruct (IH Hns) as (ns' & rs' & -> & Hns' & Hrs').
      exists (q :: ns'), rs'. cbn. rewrite Hq, Hns'. repeat split. assumption.
Qed.

Lemma statements_staged data :
  forallb is_entity_merge (List.map node_statement (nodes data)) = true
  ∧ forallb (fun q => negb (is_entity_merge q))
      (omap relationship_statement (relationships data)) = true.
Proof.
  split.
  - induction (nodes data) as [|n ns IH]; [reflexivity|]. cbn. assumption.
  - induction (relationships data) as [|r rs IH]; [reflexivity|].
    cbn [omap list_omap]. unfold GraphBuilder.relationship_statement at 1.
    destruct (rel_target r) as [[|c t]|]; assumption.
Qed.

(** The statements executed for one chunk, run a second time, change
    nothing. *)
Lemma chunk_twice doc db :
  execute_all (accepted (chunk_statements doc))
    (execute_all (accepted (chunk_statements doc)) db)
  = execute_all (accepted (chunk_statements doc)) db.
Proof.
  unfold GraphBuilder.chunk_statements.
  destruct (extract_graph_data (WebLoader.page_content doc)) as [data|]; [|reflexivity].
  destruct (statements_staged data) as [Hns Hrs].
  destruct (accepted_staged _ _ Hns Hrs) as (ns' & rs' & Heq & Hns' & Hrs').
  unfold GraphBuilder.statements. rewrite Heq. apply execute_all_staged_twice; assumption.
Qed.

Lemma sent_for_app xs ys : sent_for (xs ++ ys) = sent_for xs ++ sent_for ys.
Proof. apply List.flat_map_app. Qed.

Lemma accepted_for_app xs ys : accepted_for (xs ++ ys) = accepted_for xs ++ accepted_for ys.
Proof. apply List.flat_map_app. Qed.

Lemma statuses_app xs ys :
  ∀ i, statuses i (xs ++ ys) = statuses i xs ++ statuses (i + List.length xs) ys.
Proof.
  induction xs as [|x xs IH]; intros i; cbn.
  - rewrite Nat.add_0_r. reflexivity.
  - rewrite IH, Nat.add_succ_r. reflexivity.
Qed.

Lemma execute_all_app xs ys db :
  execute_all (xs ++ ys) db = execute_all ys (execute_all xs db).
Proof. apply List.fold_left_app. Qed.

(** C2. When the processing of one chunk fails, on its extraction or on a
    statement the store rejects, [ingest_documents] still returns normally
    and prints a failure line for that chunk, and the chunks before and
    after it send and have executed exactly the statements they send and
    have executed in a run without the failing chunk. When it is the
    extraction that failed, the two runs send the same statements and end
    with the same store. *)
Theorem ingest_isolates_failure pre bad post w :
  chunk_fails bad = true ->
  let after := ingest_documents (pre ++ bad :: post) w in
  let without := ingest_documents (pre ++ post) w in
  fst after = Ok tt
  ∧ printed (snd after)
    = printed w ++ statuses 0 pre ++ [Failed (List.length pre + 1)]
        ++ statuses (S (List.length pre)) post
  ∧ issued (snd after)
    = issued w ++ sent_for pre ++ sent (chunk_statements bad) ++ sent_for post
  ∧ issued (snd without) = issued w ++ sent_for pre ++ sent_for post
  ∧ graph (snd after)
    = execute_all (accepted_for post)
        (execute_all (accepted (chunk_statements bad))
           (execute_all (accepted_for pre) (graph w)))
  ∧ graph (snd without)
    = execute_all (accepted_for post) (execute_all (accepted_for pre) (graph w))
  ∧ (extract_graph_data (WebLoader.page_content bad) = None ->
     graph (snd after) = graph (snd without)
     ∧ issued (snd after) = issued (snd without)).
Proof.
  intros Hbad after without. subst after without.
  unfold GraphBuilder.ingest_documents. rewrite !ingest_from_spec. cbn [fst snd graph issued printed].
  replace (bad :: post) with ([bad] ++ post) by reflexivity.
  rewrite !sent_for_app, !accepted_for_app, !statuses_app, !execute_all_app.
  cbn [GraphBuilder.sent_for GraphBuilder.accepted_for flat_map GraphBuilder.statuses].
  rewrite !List.app_nil_r. unfold GraphBuilder.status at 1. rewrite Hbad.
  cbn [List.length Nat.add]. rewrite Nat.add_1_r.
  repeat (split; [reflexivity|]). intros Hnone.
  unfold GraphBuilder.chunk_statements. rewrite Hnone. cbn. split; reflexivity.
Qed.

(** C3. Ingesting a chunk a second time leaves the store as the first
    ingestion left it: the same entities with the same types, the same
    relationships with the same descriptions. The same holds for the chunk
    listed twice in one call. *)
Theorem ingest_idempotent doc w :
  let once := snd (ingest_documents [doc] w) in
  let twice := snd (ingest_documents [doc] once) in
  graph twice = graph once
  ∧ size (entities (graph twice)) = size (entities (graph once))
  ∧ size (edges (graph twice)) = size (edges (graph once))
  ∧ graph (snd (ingest_documents [doc; doc] w)) = graph once.
Proof.
  intros once twice. subst once twice.
  unfold GraphBuilder.ingest_documents. rewrite !ingest_from_spec. cbn [fst snd graph].
  cbn [GraphBuilder.accepted_for flat_map]. rewrite !List.app_nil_r, execute_all_app.
  rewrite !chunk_twice. repeat split; reflexivity.
Qed.

(** The statements of a chunk do not change when a relationship that yields
    no statement is taken out. *)
Lemma statements_without ns rs1 r rs2 :
  relationship_statement r = None ->
  statements (mkGraphData ns (rs1 ++ r :: rs2)) = statements (mkGraphData ns (rs1 ++ rs2)).
Proof.
  intros Hr. unfold GraphBuilder.statements. cbn [nodes relationships].
  rewrite !omap_app. cbn [omap list_omap]. rewrite Hr. reflexivity.
Qed.

Lemma ingest_chunk_without i doc doc' ns rs1 r rs2 w :
  relationship_statement r = None ->
  extract_graph_data (WebLoader.page_content doc) = Some (mkGraphData ns (rs1 ++ r :: rs2)) ->
  extract_graph_data (WebLoader.page_content doc') = Some (mkGraphData ns (rs1 ++ rs2)) ->
  ingest_chunk i doc w = ingest_chunk i doc' w.
Proof.
  intros Hr Hdoc Hdoc'. rewrite !ingest_chunk_spec, Hdoc, Hdoc'.
  rewrite (statements_without ns rs1 r rs2 Hr). reflexivity.
Qed.

(** C4. A relationship without a target sends nothing to the store and
    raises nothing, and the chunk it belongs to is processed exactly as the
    chunk without it: the same statements for its entities and its other
    relationships, the same store, the same status line. *)
Theorem absent_target_dropped i doc doc' ns rs1 r rs2 :
  rel_target r = None ->
  extract_graph_data (WebLoader.page_content doc) = Some (mkGraphData ns (rs1 ++ r :: rs2)) ->
  extract_graph_data (WebLoader.page_content doc') = Some (mkGraphData ns (rs1 ++ rs2)) ->
  (∀ w, create_relationship r w = (Ok tt, w))
  ∧ (∀ w, ingest_chunk i doc w = ingest_chunk i doc' w)
  ∧ (∀ w, issued (snd (ingest_chunk i doc w))
          = issued w ++ sent (List.map node_statement ns
                              ++ omap relationship_statement (rs1 ++ rs2))).
Proof.
  intros Hr Hdoc Hdoc'.
  assert (relationship_statement r = None) as Hnone
    by (unfold GraphBuilder.relationship_statement; rewrite Hr; reflexivity).
  split; [|split].
  - intros w. rewrite create_relationship_statement, Hnone. reflexivity.
  - intros w. eapply ingest_chunk_without; eassumption.
  - intros w. rewrite (ingest_chunk_without i doc doc' ns rs1 r rs2 w Hnone Hdoc Hdoc').
    rewrite ingest_chunk_spec, Hdoc'. cbn zeta.
    destruct (existsb query_raises _); reflexivity.
Qed.

(** C10. A relationship whose target is the empty string is dropped like one
    without a target: nothing is sent, nothing is raised, and its chunk is
    processed as the chunk without it. The test is on the target as
    supplied: any other target, blank ones included, sends its statement. *)
Theorem empty_target_dropped i doc doc' ns rs1 r rs2 :
  rel_target r = Some "" ->
  extract_graph_data (WebLoader.page_content doc) = Some (mkGraphData ns (rs1 ++ r :: rs2)) ->
  extract_graph_data (WebLoader.page_content doc') = Some (mkGraphData ns (rs1 ++ rs2)) ->
  (∀ w, create_relationship r w = (Ok tt, w))
  ∧ (∀ w, create_relationship r w
          = create_relationship
              (mkRelationship (rel_source r) None (rel_type r) (rel_description r)) w)
  ∧ (∀ w, ingest_chunk i doc w = ingest_chunk i doc' w)
  ∧ (∀ r' target w, rel_target r' = Some target -> target <> "" ->
       ∃ label description,
         issued (snd (create_relationship r' w))
         = issued w ++ [MergeRelationship (str_strip (rel_source r'))
                          (str_strip target) label description]).
Proof.
  intros Hr Hdoc Hdoc'.
  assert (relationship_statement r = None) as Hnone
    by (unfold GraphBuilder.relationship_statement; rewrite Hr; reflexivity).
  split; [|split; [|split]].
  - intros w. rewrite create_relationship_statement, Hnone. reflexivity.
  - intros w. rewrite !create_relationship_statement, Hnone. reflexivity.
  - intros w. eapply ingest_chunk_without; eassumption.
  - intros r' target w Hr' Hne. rewrite create_relationship_statement.
    unfold GraphBuilder.relationship_statement. rewrite Hr'.
    destruct target as [|c t]; [contradiction|]. eexists _, _.
    unfold GraphBuilder.graph_query. destruct (query_raises _); reflexivity.
Qed.

Lemma accepted_In q qs : In q (accepted qs) -> In q qs.
Proof.
  induction qs as [|q' qs IH]; [intros []|]. cbn.
  destruct (query_raises q'); [intros []|]. intros [->|Hin]; [left; reflexivity|right; auto].
Qed.

(** An executed statement of a run belongs to the extraction of one of its
    chunks. *)
Lemma accepted_for_origin q documents :
  In q (accepted_for documents) ->
  ∃ doc data, In doc documents
              ∧ extract_graph_data (WebLoader.page_content doc) = Some data
              ∧ In q (statements data).
Proof.
  unfold GraphBuilder.accepted_for. intros Hq. apply List.in_flat_map in Hq.
  destruct Hq as (doc & Hdoc & Hq). apply accepted_In in Hq.
  unfold GraphBuilder.chunk_statements in Hq.
  destruct (extract_graph_data (WebLoader.page_content doc)) as [data|] eqn:Hdata;
    [|destruct Hq].
  exists doc, data. repeat split; assumption.
Qed.

(** A relationship statement of a chunk comes from a relationship of the
    extraction that has a non-empty target, with the fields as the loop
    prepares them. *)
Lemma relationship_statement_origin data source target label description :
  In (MergeRelationship source target label description) (statements data) ->
  ∃ rel raw, In rel (relationships data)
             ∧ rel_target rel = Some raw ∧ raw <> EmptyString
             ∧ source = str_strip (rel_source rel)
             ∧ target = str_strip raw
             ∧ label = PyStr.replace " " "_" (str_upper (rel_type rel))
             ∧ description = default EmptyString (rel_description rel).
Proof.
  unfold GraphBuilder.statements. intros Hq. apply List.in_app_or in Hq.
  destruct Hq as [Hq|Hq].
  - apply List.in_map_iff in Hq. destruct Hq as (node & Hnode & _).
    unfold GraphBuilder.node_statement in Hnode. discriminate.
  - apply list_elem_of_In, list_elem_of_omap in Hq. destruct Hq as (rel & Hrel & Hq).
    unfold GraphBuilder.relationship_statement in Hq.
    destruct (rel_target rel) as [[|c t]|] eqn:Htarget; try discriminate.
    injection Hq as <- <- <- <-. exists rel, (String c t).
    split; [apply list_elem_of_In, Hrel|]. split; [exact Htarget|].
    split; [discriminate|]. repeat split.
Qed.

(** A relationship found in the store after a list of statements was there
    before, or one of the statements wrote it. *)
Lemma execute_all_edge_origin qs :
  ∀ db source label target description,
    edges (execute_all qs db) !! (source, label, target) = Some description ->
    edges db !! (source, label, target) = Some description
    ∨ In (MergeRelationship source target label description) qs.
Proof.
  induction qs as [|q qs IH]; intros db source label target description Hedge;
    [left; exact Hedge|].
  change (execute_all (q :: qs) db) with (execute_all qs (execute q db)) in Hedge.
  destruct (IH _ _ _ _ _ Hedge) as [Hq|Hin]; [|right; right; exact Hin].
  destruct q as [id type|s t l d]; cbn in Hq; [left; exact Hq|].
  destruct (_ && _); [|left; exact Hq]. cbn in Hq.
  apply lookup_insert_Some in Hq. destruct Hq as [[[= -> -> ->] ->]|[_ Hq]].
  - right. left. reflexivity.
  - left. exact Hq.
Qed.

(** C5. Every relationship the builder persists is normalized. On the way
    in: a relationship with a non-empty target sends one statement, with
    source and target stripped, the type in upper case with its blanks
    turned into underscores, and the description as supplied or empty
    without one; when the store accepts it and knows both ends, that is the
    relationship stored, under that triple and with that description. On
    the way back: a relationship found in the store after an ingestion was
    there before, or it is such a normalized form of a relationship of the
    extraction of one of the chunks. Stripping and upper case are those of
    the interpreter; where upper case turns "works for" into "WORKS FOR",
    the label is "WORKS_FOR". *)
Theorem relationship_normalized :
  (∀ rel target w,
     rel_target rel = Some target ->
     target <> EmptyString ->
     let source' := str_strip (rel_source rel) in
     let target' := str_strip target in
     let label := PyStr.replace " " "_" (str_upper (rel_type rel)) in
     let description := default EmptyString (rel_description rel) in
     let q := MergeRelationship source' target' label description in
     let after := create_relationship rel w in
     issued (snd after) = issued w ++ [q]
     ∧ (query_raises q = false ->
        fst after = Ok tt
        ∧ entities (graph (snd after)) = entities (graph w)
        ∧ (is_Some (entities (graph w) !! source') ->
           is_Some (entities (graph w) !! target') ->
           edges (graph (snd after))
           = <[(source', label, target') := description]> (edges (graph w))
           ∧ edges (graph (snd after)) !! (source', label, target') = Some description)))
  ∧ (∀ documents w source label target description,
       edges (graph (snd (ingest_documents documents w))) !! (source, label, target)
       = Some description ->
       edges (graph w) !! (source, label, target) = Some description
       ∨ ∃ doc data rel raw,
           In doc documents
           ∧ extract_graph_data (WebLoader.page_content doc) = Some data
           ∧ In rel (relationships data)
           ∧ rel_target rel = Some raw ∧ raw <> EmptyString
           ∧ source = str_strip (rel_source rel)
           ∧ target = str_strip raw
           ∧ label = PyStr.replace " " "_" (str_upper (rel_type rel))
           ∧ description = default EmptyString (rel_description rel))
  ∧ (str_upper "works for" = "WORKS FOR" ->
     PyStr.replace " " "_" (str_upper "works for") = "WORKS_FOR").
Proof.
  split; [|split].
  - intros rel target w Hrel Hne source' target' label description q after. subst after.
    rewrite create_relationship_statement. unfold GraphBuilder.relationship_statement.
    rewrite Hrel. destruct target as [|c t]; [contradiction|].
    fold target' source' label description q. unfold GraphBuilder.graph_query.
    split; [destruct (query_raises q); reflexivity|].
    intros ->. cbn [fst snd graph]. split; [reflexivity|].
    unfold q. cbn [execute]. split.
    + destruct (_ && _); reflexivity.
    + intros Hs Ht. rewrite !bool_decide_eq_true_2 by assumption. cbn [andb edges].
      split; [reflexivity|]. apply lookup_insert_eq.
  - intros documents w source label target description Hedge.
    unfold GraphBuilder.ingest_documents in Hedge. rewrite ingest_from_spec in Hedge.
    cbn [snd graph] in Hedge.
    destruct (execute_all_edge_origin _ _ _ _ _ _ Hedge) as [Hbefore|Hq];
      [left; exact Hbefore|right].
    destruct (accepted_for_origin _ _ Hq) as (doc & data & Hdoc & Hdata & Hin).
    destruct (relationship_statement_origin _ _ _ _ _ Hin) as (rel & raw & Hrel).
    exists doc, data, rel, raw. tauto.
  - intros ->. reflexivity.
Qed.

End IngestFacts.

(** ** Python string methods *)

Section StringFacts.

Import PyStr.

Lemma lstrip_decompose s :
  ∃ l, s = l +:+ lstrip s ∧ all_chars isspace l = true.
Proof.
  induction s as [|c s (l & IH & Hl)].
  - exists EmptyString. split; reflexivity.
  - cbn. destruct (isspace c) eqn:Hc.
    + exists (String c l). cbn. rewrite Hc, Hl. split; [rewrite IH at 1|]; reflexivity.
    + exists EmptyString. split; reflexivity.
Qed.

Lemma lstrip_head s : starts_with_space (lstrip s) = false.
Proof.
  induction s as [|c s IH]; [reflexivity|]. cbn.
  destruct (isspace c) eqn:Hc; [assumption|]. cbn. assumption.
Qed.

Lemma rstrip_decompose s :
  ∃ r, s = rstrip s +:+ r ∧ all_chars isspace r = true.
Proof.
  induction s as [|c s (r & IH & Hr)].
  - exists EmptyString. split; reflexivity.
  - cbn. destruct (rstrip s) as [|d u] eqn:Hs.
    + change (s = r) in IH. subst r. destruct (isspace c) eqn:Hc.
      * exists (String c s). cbn. rewrite Hc, Hr. split; reflexivity.
      * exists s. split; [reflexivity|assumption].
    + exists r. rewrite IH at 1. split; [reflexivity|assumption].
Qed.

Lemma rstrip_tail s : ends_with_space (rstrip s) = false.
Proof.
  induction s as [|c s IH]; [reflexivity|]. cbn.
  destruct (rstrip s) as [|d u].
  - destruct (isspace c) eqn:Hc; [reflexivity|]. cbn. assumption.
  - exact IH.
Qed.

Lemma rstrip_head s : starts_with_space s = false -> starts_with_space (rstrip s) = false.
Proof.
  destruct s as [|c s]; [reflexivity|]. cbn. intros Hc.
  destruct (rstrip s); [rewrite Hc|]; cbn; assumption.
Qed.

(** [strip] removes a run of whitespace at each end and leaves a string that
    neither starts nor ends with whitespace. *)
Lemma strip_spec s :
  ∃ l r, s = l +:+ strip s +:+ r
         ∧ all_chars isspace l = true ∧ all_chars isspace r = true
         ∧ starts_with_space (strip s) = false
         ∧ ends_with_space (strip s) = false.
Proof.
  destruct (lstrip_decompose s) as (l & Hl & Hls).
  destruct (rstrip_decompose (lstrip s)) as (r & Hr & Hrs).
  exists l, r. unfold strip. rewrite <- Hr, <- Hl.
  repeat split; try assumption.
  - apply rstrip_head, lstrip_head.
  - apply rstrip_tail.
Qed.

Lemma upper_char_not_lower c : islower (upper_char c) = false.
Proof. destruct c as [[] [] [] [] [] [] [] []]; reflexivity. Qed.

(** The label of a relationship has the length of its type and holds
    neither a space nor a lower-case letter. *)
Lemma label_shape s :
  String.length (replace " " "_" (upper s)) = String.length s
  ∧ all_chars (fun c => negb (Ascii.eqb c " ") && negb (islower c))
      (replace " " "_" (upper s)) = true.
Proof.
  induction s as [|c s [IHlen IHall]]; [split; reflexivity|].
  cbn. rewrite IHlen, IHall. split; [reflexivity|].
  rewrite andb_true_r. pose proof (upper_char_not_lower c) as Hc.
  destruct (Ascii.eqb (upper_char c) " ") eqn:Heq; [reflexivity|].
  rewrite Heq, Hc. reflexivity.
Qed.

End StringFacts.

(** ** Graph retrieval *)

Section RetrievalFacts.

Import GraphRAGChain.

Variable Value : Type.
Variable dict_str : list (string * Value) -> string.
Variable str_strip : string -> string.
Variable extract_entity : string -> option string.
Variable graph_query : string -> option (list (Row Value)).
Variable listing : list string -> list string.
Variable vector_retriever : string -> option (list WebLoader.Document).

Local Abbreviation fact_of := (fact_of Value dict_str).
Local Abbreviation clean_props := (clean_props Value).
Local Abbreviation get_graph_context :=
  (get_graph_context Value dict_str str_strip extract_entity graph_query listing).
Local Abbreviation hybrid_retrieval :=
  (hybrid_retrieval Value dict_str str_strip extract_entity graph_query listing
     vector_retriever).

(** The comprehension keeps a property exactly when its key is neither
    [id] nor [type]. *)
Lemma clean_props_In kv props :
  kv ∈ clean_props props ↔ kv ∈ props ∧ fst kv <> "id" ∧ fst kv <> "type".
Proof.
  clear. unfold GraphRAGChain.clean_props. rewrite !list_elem_of_In, List.filter_In.
  rewrite negb_true_iff, bool_decide_eq_false.
  rewrite !elem_of_cons, elem_of_nil. tauto.
Qed.

(** The fact of a row: the three fields separated by blanks, and the
    details when the target has properties besides [id] and [type]. *)
Lemma fact_of_spec record :
  let plain :=
    row_source Value record +:+ " " +:+ row_rel_type Value record +:+ " "
      +:+ row_target Value record in
  let props := row_target_props Value record in
  ((∃ kv, kv ∈ props ∧ fst kv <> "id" ∧ fst kv <> "type") ->
   fact_of record = plain +:+ " (Details: " +:+ dict_str (clean_props props) +:+ ")")
  ∧ (¬ (∃ kv, kv ∈ props ∧ fst kv <> "id" ∧ fst kv <> "type") ->
     fact_of record = plain).
Proof.
  intros plain props. unfold GraphRAGChain.fact_of. fold plain props. split.
  - intros (kv & Hkv). apply clean_props_In in Hkv.
    destruct (clean_props props) as [|kv' rest] eqn:Hclean; [inversion Hkv|].
    destruct props as [|p props']; [discriminate|]. reflexivity.
  - intros Hnone. destruct props as [|p props'] eqn:Hprops; [reflexivity|].
    cbn [nonempty]. destruct (clean_props (p :: props')) as [|kv rest] eqn:Hclean;
      [reflexivity|].
    exfalso. apply Hnone. exists kv. apply clean_props_In. rewrite Hclean. left.
Qed.

(** C6. When the traversal statement fails, [get_graph_context] returns the
    empty string: the exception stays inside, and the fused context is
    still produced, with the retrieved passages and an empty section of
    relationships. *)
Theorem graph_failure_gives_empty_context query answer :
  extract_entity query = Some answer ->
  graph_query (str_strip answer) = None ->
  get_graph_context query = Some ""
  ∧ ∀ vector_docs,
      vector_retriever query = Some vector_docs ->
      hybrid_retrieval query
      = Some (newline
              +:+ margin +:+ "--- WEBSITE CONTENT ---" +:+ newline
              +:+ margin +:+ PyStr.join newline (List.map WebLoader.page_content vector_docs)
              +:+ newline
              +:+ margin +:+ newline
              +:+ margin +:+ "--- DATABASE RELATIONSHIPS ---" +:+ newline
              +:+ margin +:+ newline
              +:+ margin).
Proof.
  intros Hentity Hfail.
  assert (get_graph_context query = Some "") as Hctx.
  { unfold GraphRAGChain.get_graph_context. rewrite Hentity, Hfail. reflexivity. }
  split; [exact Hctx|]. intros vector_docs Hdocs.
  unfold GraphRAGChain.hybrid_retrieval. rewrite Hdocs, Hctx. reflexivity.
Qed.

(** What is known of [list(set(xs))] whatever the order: no element twice,
    and the elements of [xs]. *)
Hypothesis listing_distinct :
  ∀ xs, NoDup (listing xs) ∧ ∀ x, x ∈ listing xs ↔ x ∈ xs.

(** C9. The graph context is the newline-joined list of the facts of the
    rows, each distinct fact once; a fact is the source, type and target of
    its row separated by blanks, followed by the parenthesized details
    exactly when the target has a property other than [id] and [type]. *)
Theorem graph_context_facts query answer result :
  extract_entity query = Some answer ->
  graph_query (str_strip answer) = Some result ->
  ∃ lines,
    get_graph_context query = Some (PyStr.join (String "010" EmptyString) lines)
    ∧ NoDup lines
    ∧ (∀ fact, fact ∈ lines ↔ ∃ record, record ∈ result ∧ fact = fact_of record)
    ∧ (∀ record, record ∈ result ->
         let plain :=
           row_source Value record +:+ " " +:+ row_rel_type Value record +:+ " "
             +:+ row_target Value record in
         let props := row_target_props Value record in
         ((∃ kv, kv ∈ props ∧ fst kv <> "id" ∧ fst kv <> "type") ->
          fact_of record
          = plain +:+ " (Details: " +:+ dict_str (clean_props props) +:+ ")")
         ∧ (¬ (∃ kv, kv ∈ props ∧ fst kv <> "id" ∧ fst kv <> "type") ->
            fact_of record = plain)).
Proof.
  clear vector_retriever. intros Hentity Hrows.
  exists (listing (List.map fact_of result)).
  destruct (listing_distinct (List.map fact_of result)) as [Hnodup Hmem].
  split; [|split; [|split]].
  - unfold GraphRAGChain.get_graph_context. rewrite Hentity, Hrows. reflexivity.
  - exact Hnodup.
  - intros fact. rewrite Hmem.
    rewrite list_elem_of_In, List.in_map_iff. split.
    + intros (record & <- & Hin). exists record. rewrite list_elem_of_In. tauto.
    + intros (record & Hin & ->). exists record. rewrite <- list_elem_of_In. tauto.
  - intros record _. apply fact_of_spec.
Qed.

End RetrievalFacts.

(** ** The theorems at work on the concrete worlds *)

(** C2 on three chunks, the second of which the extraction fails on: the run
    ends with the store and the statement log of the run over the other
    two. *)
Lemma ingest_isolates_failure_witness :
  GraphBuilder.graph
    (Worlds.ingest ["alice"; "noise"; "bob"] Worlds.blank)
  = GraphBuilder.graph (Worlds.ingest ["alice"; "bob"] Worlds.blank)
  ∧ GraphBuilder.issued
      (Worlds.ingest ["alice"; "noise"; "bob"] Worlds.blank)
    = GraphBuilder.issued (Worlds.ingest ["alice"; "bob"] Worlds.blank).
Proof.
  refine (proj2 (proj2 (proj2 (proj2 (proj2 (proj2
            (ingest_isolates_failure PyStr.strip PyStr.upper Worlds.extraction Worlds.rejects
               [Worlds.chunk "alice"] (Worlds.chunk "noise") [Worlds.chunk "bob"]
               Worlds.blank _)))))) _).
  - reflexivity.
  - reflexivity.
Defined.

(** C4 on the chunk ["bob"], whose first relationship has no target. *)
Lemma absent_target_dropped_witness :
  GraphBuilder.ingest_chunk PyStr.strip PyStr.upper Worlds.extraction Worlds.rejects 0 (Worlds.chunk "bob")
    Worlds.blank
  = GraphBuilder.ingest_chunk PyStr.strip PyStr.upper Worlds.extraction Worlds.rejects 0
      (Worlds.chunk "bob, plain") Worlds.blank.
Proof.
  refine (proj1 (proj2
            (absent_target_dropped PyStr.strip PyStr.upper Worlds.extraction Worlds.rejects 0
               (Worlds.chunk "bob") (Worlds.chunk "bob, plain")
               [GraphBuilder.mkNode "Bob" "Person"] [] Worlds.bob_absent [Worlds.bob_alice]
               _ _ _)) Worlds.blank); reflexivity.
Defined.

(** C10 on the chunk ["bob, empty"], whose first relationship has the empty
    string as its target. *)
Lemma empty_target_dropped_witness :
  GraphBuilder.ingest_chunk PyStr.strip PyStr.upper Worlds.extraction Worlds.rejects 0
    (Worlds.chunk "bob, empty") Worlds.blank
  = GraphBuilder.ingest_chunk PyStr.strip PyStr.upper Worlds.extraction Worlds.rejects 0
      (Worlds.chunk "bob, plain") Worlds.blank.
Proof.
  refine (proj1 (proj2 (proj2
            (empty_target_dropped PyStr.strip PyStr.upper Worlds.extraction Worlds.rejects 0
               (Worlds.chunk "bob, empty") (Worlds.chunk "bob, plain")
               [GraphBuilder.mkNode "Bob" "Person"] [] Worlds.bob_empty [Worlds.bob_alice]
               _ _ _))) Worlds.blank); reflexivity.
Defined.

(** C5 on the relationship of the chunk ["alice"], sent to a store that
    holds both of its ends; the chunk is ASCII text, stripped and put in
    upper case as [str.strip] and [str.upper] do. *)
Lemma relationship_normalized_witness :
  GraphBuilder.issued
    (snd (GraphBuilder.create_relationship PyStr.strip PyStr.upper Worlds.rejects
            (GraphBuilder.mkRelationship "Alice " (Some " Acme") "works for" None)
            (Worlds.ingest ["alice"] Worlds.blank)))
  = GraphBuilder.issued (Worlds.ingest ["alice"] Worlds.blank)
    ++ [GraphBuilder.MergeRelationship "Alice" "Acme" "WORKS_FOR" ""]
  ∧ PyStr.replace " " "_" (PyStr.upper "works for") = "WORKS_FOR".
Proof.
  split.
  - refine (proj1
              (proj1 (relationship_normalized PyStr.strip PyStr.upper Worlds.extraction
                        Worlds.rejects)
                 (GraphBuilder.mkRelationship "Alice " (Some " Acme") "works for" None)
                 " Acme" (Worlds.ingest ["alice"] Worlds.blank) _ _)).
    + reflexivity.
    + discriminate.
  - refine (proj2 (proj2 (relationship_normalized PyStr.strip PyStr.upper Worlds.extraction
                            Worlds.rejects)) _).
    reflexivity.
Defined.

(** C6 with the store down. *)
Lemma graph_failure_gives_empty_context_witness :
  GraphRAGChain.get_graph_context string Worlds.dict_str PyStr.strip Worlds.entity_of
    Worlds.down Worlds.set_listing "who works for Acme?" = Some "".
Proof.
  refine (proj1 (graph_failure_gives_empty_context string Worlds.dict_str PyStr.strip
                   Worlds.entity_of Worlds.down Worlds.set_listing (fun _ => None)
                   "who works for Acme?" " Acme " _ _));
    reflexivity.
Defined.

(** [set_listing] lists every element once. *)
Lemma set_listing_distinct xs :
  NoDup (Worlds.set_listing xs) ∧ ∀ x, x ∈ Worlds.set_listing xs ↔ x ∈ xs.
Proof.
  unfold Worlds.set_listing. split; [apply NoDup_elements|].
  intros x. rewrite elem_of_elements, elem_of_list_to_set. reflexivity.
Defined.

(** C9 on a traversal that reaches one relationship twice. *)
Lemma graph_context_facts_witness :
  ∃ lines,
    GraphRAGChain.get_graph_context string Worlds.dict_str PyStr.strip Worlds.entity_of
      Worlds.traversal Worlds.set_listing "who works for Acme?"
    = Some (PyStr.join (String "010" EmptyString) lines)
    ∧ NoDup lines
    ∧ (∀ fact, fact ∈ lines ↔
         ∃ record, record ∈ [Worlds.works_for; Worlds.sells; Worlds.works_for]
                   ∧ fact = GraphRAGChain.fact_of string Worlds.dict_str record).
Proof.
  destruct (graph_context_facts string Worlds.dict_str PyStr.strip Worlds.entity_of
              Worlds.traversal Worlds.set_listing set_listing_distinct
              "who works for Acme?" " Acme "
              [Worlds.works_for; Worlds.sells; Worlds.works_for] eq_refl eq_refl)
    as (lines & Hctx & Hnodup & Hmem & _).
  exists lines. split; [exact Hctx|]. split; [exact Hnodup|exact Hmem].
Defined.

(** The examples of the specification. *)

(** A single page without links, [max_depth = 2], [max_pages = 10]: one
    document, one visited URL. *)
Example lone_page_crawl :
  WebLoader.load Worlds.netloc Worlds.urljoin Worlds.lone_site "http://a.com/" 2 10 2
  = Some (WebLoader.Returned [WebLoader.mkDocument "home" "http://a.com/" (Some "home")])
  ∧ ∃ f, WebLoader.iteration Worlds.netloc Worlds.urljoin Worlds.lone_site
           "http://a.com/" 2 10 (WebLoader.entry "http://a.com/" WebLoader.fresh)
         = WebLoader.Next f
         ∧ size (WebLoader.visited (WebLoader.self f)) = 1%nat
         ∧ WebLoader.queue f = [].
Proof.
  split; [vm_compute; reflexivity|].
  eexists. split; [vm_compute; reflexivity|]. split; vm_compute; reflexivity.
Qed.

(** The chunk about Alice and Acme: two entities and one relationship
    labelled [WORKS_FOR], also after a second ingestion. *)
Example alice_acme_ingested :
  let w := Worlds.ingest ["alice"] Worlds.blank in
  map_to_list (GraphBuilder.entities (GraphBuilder.graph w))
    ≡ₚ [("Alice", "Person"); ("Acme", "Organization")]
  ∧ map_to_list (GraphBuilder.edges (GraphBuilder.graph w))
    = [(("Alice", "WORKS_FOR", "Acme"), "")]
  ∧ GraphBuilder.graph (Worlds.ingest ["alice"] w) = GraphBuilder.graph w.
Proof.
  split; [|split].
  - vm_compute. apply perm_swap.
  - vm_compute. reflexivity.
  - vm_compute. reflexivity.
Qed.

(** Extraction failing on the third of five chunks: the other four end with
    a success line. *)
Example third_of_five_fails :
  GraphBuilder.printed
    (Worlds.ingest ["alice"; "bob"; "noise"; "bob, plain"; "alice"] Worlds.blank)
  = [GraphBuilder.Ingested 1; GraphBuilder.Ingested 2; GraphBuilder.Failed 3;
     GraphBuilder.Ingested 4; GraphBuilder.Ingested 5].
Proof. vm_compute. reflexivity. Qed.

(** A rejected statement ends its chunk, but what the chunk had merged
    before stays in the store. *)
Example rejected_statement_keeps_earlier_merges :
  GraphBuilder.printed (Worlds.ingest ["carol"] Worlds.blank) = [GraphBuilder.Failed 1]
  ∧ GraphBuilder.entities (GraphBuilder.graph (Worlds.ingest ["carol"] Worlds.blank))
      !! "Carol" = Some "Person".
Proof. split; vm_compute; reflexivity. Qed.

(** One stored relationship between Alice and Acme, asked about Alice. *)
Example alice_context :
  GraphRAGChain.get_graph_context string Worlds.dict_str PyStr.strip
    (fun _ => Some "Alice") Worlds.traversal Worlds.set_listing "where does Alice work?"
  = Some "Alice WORKS_FOR Acme".
Proof. vm_compute. reflexivity. Qed.

(** A relationship whose target is blank is sent, with an empty target. *)
Example blank_target_is_sent :
  GraphBuilder.issued
    (snd (GraphBuilder.create_relationship PyStr.strip PyStr.upper Worlds.rejects
            Worlds.bob_blank Worlds.blank))
  = [GraphBuilder.MergeRelationship "Bob" "" "SEES" ""].
Proof. vm_compute. reflexivity. Qed.

(** ** The crawl, iteration by iteration *)

Section FrontierFacts.

Import WebLoader Frontier.

Variable netloc : string -> string.
Variable urljoin : string -> string -> string.
Variable http_get : string -> option Soup.
Variable start_url : string.
Variable max_depth max_pages : Z.

Local Abbreviation iteration :=
  (iteration netloc urljoin http_get start_url max_depth max_pages).
Local Abbreviation run := (run netloc urljoin http_get start_url max_depth max_pages).
Local Abbreviation load := (load netloc urljoin http_get start_url max_depth max_pages).
Local Abbreviation reachable :=
  (reachable netloc urljoin http_get start_url max_depth max_pages).
Local Abbreviation fetch_frame :=
  (fetch_frame netloc urljoin http_get start_url max_depth).
Local Abbreviation enqueued := (enqueued netloc urljoin http_get start_url max_depth).
Local Abbreviation page_new_links := (page_new_links netloc urljoin http_get start_url).
Local Abbreviation page_docs := (page_docs http_get).
Local Abbreviation responds := (responds http_get).
Local Abbreviation one_request_each := (one_request_each http_get).
Local Abbreviation depths_in_range := (depths_in_range max_depth).
Local Abbreviation fragment_free := (fragment_free start_url).

(** The iteration that requests the head of the queue. *)
Lemma iteration_fetch f url depth rest :
  queue f = (url, depth) :: rest ->
  Z.of_nat (size (visited (self f))) < max_pages ->
  depth <= max_depth ->
  url ∉ visited (self f) ->
  iteration f = Next (fetch_frame f url depth rest).
Proof.
  intros Hq Hlt Hd Hin. unfold WebLoader.iteration, WebLoader.scrape_page. rewrite Hq.
  replace (Z.of_nat (size (visited (self f))) <? max_pages) with true by lia.
  replace (depth >? max_depth) with false by lia.
  rewrite bool_decide_eq_false_2 by assumption.
  replace (max_pages <=? Z.of_nat (size (visited (self f)))) with false by lia.
  cbn [orb]. unfold Frontier.fetch_frame, Frontier.enqueued, Frontier.page_new_links,
    Frontier.page_docs.
  destruct (http_get url) as [soup|]; cbn [unpack visited];
    destruct (depth <? max_depth); cbn [List.filter List.map]; rewrite ?List.app_nil_r;
    reflexivity.
Qed.

(** The two ways an iteration stays in the loop. *)
Lemma iteration_Next_cases f f' :
  iteration f = Next f' ->
  ∃ url depth rest,
    queue f = (url, depth) :: rest
    ∧ Z.of_nat (size (visited (self f))) < max_pages
    ∧ ((max_depth < depth ∧ f' = skip_frame f rest)
       ∨ (depth <= max_depth ∧ (url ∉ visited (self f))
          ∧ f' = fetch_frame f url depth rest)).
Proof.
  intros Hit. pose proof Hit as Hit'.
  unfold WebLoader.iteration in Hit'.
  destruct (queue f) as [|[url depth] rest] eqn:Hq; [discriminate|].
  destruct (Z.of_nat (size (visited (self f))) <? max_pages) eqn:Hlt; [|discriminate].
  apply Z.ltb_lt in Hlt. exists url, depth, rest.
  split; [reflexivity|]. split; [assumption|].
  destruct (depth >? max_depth) eqn:Hd.
  - left. injection Hit' as <-. split; [lia|reflexivity].
  - right. assert (depth <= max_depth) as Hle by lia.
    destruct (decide (url ∈ visited (self f))) as [Hin|Hin].
    + rewrite (iteration_visited_raises _ _ _ _ _ _ f url depth rest Hq Hlt Hle Hin) in Hit.
      discriminate.
    + rewrite (iteration_fetch f url depth rest Hq Hlt Hle Hin) in Hit.
      injection Hit as <-. repeat split; assumption.
Qed.

(** A returned list is the document list of a frame the loop reached. *)
Lemma run_Returned_reachable fuel :
  ∀ f docs, reachable f -> run fuel f = Some (Returned docs) ->
            ∃ f', reachable f' ∧ all_docs f' = docs
                  ∧ iteration f' = Done (Returned docs).
Proof.
  induction fuel as [|fuel IH]; intros f docs Hreach Hrun; [discriminate|].
  cbn in Hrun. destruct (iteration f) as [f'|o] eqn:Hit.
  - apply (IH f' docs); [|assumption]. eapply reach_next; eassumption.
  - injection Hrun as ->. exists f. split; [assumption|].
    split; [|assumption]. symmetry. eapply iteration_Done_Returned. eassumption.
Qed.

Lemma reachable_within_bounds f :
  0 <= max_pages -> reachable f -> within_bounds max_depth max_pages (self f).
Proof.
  intros Hcap Hreach. induction Hreach as [|f f' _ IH Hit].
  - unfold within_bounds. cbn. rewrite size_empty. split; [lia|].
    split; [constructor|]. intros url. rewrite elem_of_empty, elem_of_nil. tauto.
  - apply (within_bounds_iteration _ _ _ _ _ _ f f' IH Hit).
Qed.

Lemma page_docs_sources url :
  List.map source (page_docs url) = if responds url then [url] else [].
Proof.
  unfold Frontier.page_docs, Frontier.responds.
  destruct (http_get url) as [soup|].
  - rewrite bool_decide_eq_true_2 by (eexists; reflexivity). reflexivity.
  - rewrite bool_decide_eq_false_2 by (intros [? ?]; discriminate). reflexivity.
Qed.

Lemma one_request_each_iteration f f' :
  one_request_each f -> iteration f = Next f' -> one_request_each f'.
Proof.
  intros (Hnodup & Hlog & Hdocs) Hit.
  destruct (iteration_Next_cases f f' Hit)
    as (url & depth & rest & Hq & Hlt & [[_ ->]|(_ & Hin & ->)]).
  - repeat split; assumption || apply Hlog.
  - unfold Frontier.one_request_each, Frontier.fetch_frame. cbn [self fetched visited all_docs].
    rewrite !List.map_app, List.filter_app, page_docs_sources, Hdocs. cbn [List.map List.filter fst].
    split; [|split].
    + apply NoDup_app. split; [assumption|]. split; [|apply NoDup_singleton].
      intros u Hu Hu'. apply list_elem_of_singleton in Hu'. subst u.
      apply Hin, Hlog, Hu.
    + intros u. rewrite elem_of_app, elem_of_union, <- Hlog, list_elem_of_singleton,
        elem_of_singleton. tauto.
    + destruct (responds url); reflexivity.
Qed.

Lemma reachable_one_request_each f : reachable f -> one_request_each f.
Proof.
  induction 1 as [|f f' _ IH Hit].
  - unfold Frontier.one_request_each. cbn. split; [constructor|]. split; [|reflexivity].
    intros url. rewrite elem_of_empty, elem_of_nil. tauto.
  - eapply one_request_each_iteration; eassumption.
Qed.

(** X1. At every point of the loop, no URL has been requested twice, and
    the sources of the documents collected so far are the requested URLs
    that were answered, in the order of the requests. *)
Theorem crawl_requests_once f :
  reachable f ->
  NoDup (List.map fst (fetched (self f)))
  ∧ List.map source (all_docs f)
    = List.filter responds (List.map fst (fetched (self f))).
Proof.
  intros Hreach. destruct (reachable_one_request_each f Hreach) as (Hnodup & _ & Hdocs).
  split; assumption.
Qed.

(** X2. A list returned by [load] has at most [max_pages] documents, all
    from different URLs, each of which answered its request. *)
Theorem load_documents_bounded fuel docs :
  0 <= max_pages ->
  load fuel = Some (Returned docs) ->
  Z.of_nat (List.length docs) <= max_pages
  ∧ NoDup (List.map source docs)
  ∧ Forall (fun d => responds (source d) = true) docs.
Proof.
  intros Hcap Hload.
  destruct (run_Returned_reachable fuel _ docs (reach_entry _ _ _ _ _ _) Hload)
    as (f & Hreach & <- & _).
  destruct (reachable_one_request_each f Hreach) as (Hnodup & Hlog & Hdocs).
  destruct (reachable_within_bounds f Hcap Hreach) as (Hsize & _ & _).
  assert (List.map fst (fetched (self f)) ≡ₚ elements (visited (self f))) as Hperm.
  { apply NoDup_Permutation; [assumption|apply NoDup_elements|].
    intros u. rewrite elem_of_elements. symmetry. apply Hlog. }
  split; [|split].
  - rewrite <- (List.length_map source), Hdocs.
    pose proof (List.filter_length_le responds (List.map fst (fetched (self f)))) as Hle.
    apply Permutation_length in Hperm. unfold size, set_size in Hsize. cbn in Hsize.
    lia.
  - rewrite Hdocs. clear -Hnodup. induction Hnodup as [|u l Hu _ IH]; [constructor|].
    cbn. destruct (responds u); [|assumption]. constructor; [|assumption].
    intros Hin. apply Hu. apply list_elem_of_In in Hin. apply List.filter_In in Hin.
    apply list_elem_of_In. tauto.
  - apply List.Forall_forall. intros d Hd.
    assert (In (source d) (List.map source (all_docs f))) as Hs by (apply List.in_map; assumption).
    rewrite Hdocs in Hs. apply List.filter_In in Hs. tauto.
Qed.

(** X3. The unpacking in [load] fails exactly when the URL at the head of the
    queue is already visited (the page cap not being reached and the item
    not being too deep). *)
Theorem iteration_ValueError_iff f :
  iteration f = Done ValueError
  ↔ ∃ url depth rest,
      queue f = (url, depth) :: rest
      ∧ Z.of_nat (size (visited (self f))) < max_pages
      ∧ depth <= max_depth
      ∧ url ∈ visited (self f).
Proof.
  split.
  - intros Hit. pose proof Hit as Hit'. unfold WebLoader.iteration in Hit'.
    destruct (queue f) as [|[url depth] rest] eqn:Hq; [discriminate|].
    destruct (Z.of_nat (size (visited (self f))) <? max_pages) eqn:Hlt; [|discriminate].
    apply Z.ltb_lt in Hlt.
    destruct (depth >? max_depth) eqn:Hd; [discriminate|].
    assert (depth <= max_depth) as Hle by lia.
    exists url, depth, rest. repeat split; try assumption.
    destruct (decide (url ∈ visited (self f))) as [Hin|Hin]; [assumption|].
    rewrite (iteration_fetch f url depth rest Hq Hlt Hle Hin) in Hit. discriminate.
  - intros (url & depth & rest & Hq & Hlt & Hle & Hin).
    eapply iteration_visited_raises; eassumption.
Qed.

(** X4. With a page cap of zero or less, or a negative depth limit, [load]
    returns the empty list without a single request. *)
Theorem load_degenerate_bounds :
  max_pages <= 0 ∨ max_depth < 0 ->
  load 2 = Some (Returned [])
  ∧ ∀ f, reachable f -> fetched (self f) = [].
Proof.
  intros Hdeg. split.
  - unfold WebLoader.load, WebLoader.run, WebLoader.iteration, entry, fresh.
    cbn [queue self visited all_docs]. rewrite size_empty.
    destruct (Z.of_nat 0 <? max_pages) eqn:Hcap; [|reflexivity].
    apply Z.ltb_lt in Hcap. cbn in Hcap.
    replace (0 >? max_depth) with true by lia. cbn [queue]. reflexivity.
  - intros f Hreach. induction Hreach as [|f f' Hreach IH Hit]; [reflexivity|].
    destruct (iteration_Next_cases f f' Hit)
      as (url & depth & rest & Hq & Hlt & [[_ ->]|(Hd & Hin & ->)]); [exact IH|].
    exfalso. destruct Hdeg as [Hcap|Hdepth]; [lia|].
    (* the only item ever queued is the seed, at depth 0 *)
    assert (∀ g, reachable g -> Forall (fun p => snd p = 0) (queue g)) as Hzero.
    { clear -Hdepth. intros g Hg. induction Hg as [|g g' _ IHg Hitg].
      - repeat constructor.
      - destruct (iteration_Next_cases g g' Hitg)
          as (u & d & r & Hq & _ & [[_ ->]|(Hd & _ & ->)]).
        + rewrite Hq in IHg. apply List.Forall_cons_iff in IHg. cbn. tauto.
        + rewrite Hq in IHg. apply List.Forall_cons_iff in IHg. cbn in IHg. lia. }
    pose proof (Hzero f Hreach) as Hf. rewrite Hq in Hf.
    apply List.Forall_cons_iff in Hf. cbn in Hf. lia.
Qed.

(** X5. When the request for the seed fails, [load] returns the empty list:
    the failure is not an error of the crawl. *)
Theorem load_seed_unreachable :
  http_get start_url = None ->
  1 <= max_pages ->
  0 <= max_depth ->
  load 2 = Some (Returned []).
Proof.
  intros Hnone Hcap Hdepth. unfold WebLoader.load. cbn [WebLoader.run].
  rewrite (iteration_fetch (entry start_url fresh) start_url 0 []);
    [|reflexivity|cbn; rewrite size_empty; lia|assumption|cbn; apply not_elem_of_empty].
  unfold Frontier.fetch_frame, Frontier.enqueued, Frontier.page_new_links, Frontier.page_docs.
  rewrite Hnone. cbn [entry queue all_docs self]. unfold WebLoader.iteration.
  destruct (0 <? max_depth); reflexivity.
Qed.

(** X6. With [max_depth = 0] nothing is ever enqueued: [load] requests the
    seed and returns its document, or no document when the request fails;
    it cannot raise. *)
Theorem load_depth_zero :
  max_depth = 0 ->
  1 <= max_pages ->
  load 2 = Some (Returned (page_docs start_url)).
Proof.
  intros Hdepth Hcap. unfold WebLoader.load. cbn [WebLoader.run].
  rewrite (iteration_fetch (entry start_url fresh) start_url 0 []);
    [|reflexivity|cbn; rewrite size_empty; lia|lia|cbn; apply not_elem_of_empty].
  unfold Frontier.fetch_frame, Frontier.enqueued. subst max_depth.
  cbn [Z.ltb Z.compare entry queue all_docs self app]. unfold WebLoader.iteration.
  reflexivity.
Qed.

Lemma split_head_no_fragment s : has_no_fragment (PyStr.split_head "#" s) = true.
Proof.
  unfold has_no_fragment. induction s as [|c s IH]; [reflexivity|].
  cbn. destruct (Ascii.eqb c "#") eqn:Hc; [reflexivity|]. cbn. rewrite Hc, IH. reflexivity.
Qed.

(** What [load] enqueues after a page: items one level down, only below the
    depth limit, for links without a fragment. *)
Lemma enqueued_items url depth seen :
  Forall (fun p => snd p = depth + 1 ∧ depth < max_depth
                   ∧ has_no_fragment (fst p) = true)
    (enqueued url depth seen).
Proof.
  unfold Frontier.enqueued. destruct (depth <? max_depth) eqn:Hd; [|constructor].
  apply Z.ltb_lt in Hd. apply List.Forall_forall. intros p Hp.
  apply List.in_map_iff in Hp. destruct Hp as (link & <- & Hlink).
  apply List.filter_In in Hlink. destruct Hlink as [Hlink _].
  cbn. split; [reflexivity|]. split; [assumption|].
  unfold Frontier.page_new_links in Hlink. destruct (http_get url) as [soup|]; [|destruct Hlink].
  unfold page_links in Hlink. apply List.filter_In in Hlink. destruct Hlink as [Hlink _].
  apply List.in_map_iff in Hlink. destruct Hlink as (href & <- & _).
  apply split_head_no_fragment.
Qed.

Lemma requests_sorted_snoc (l : list (string * Z)) url depth :
  StronglySorted Z.le (List.map snd l) ->
  Forall (fun p => snd p <= depth) l ->
  StronglySorted Z.le (List.map snd (l ++ [(url, depth)])).
Proof.
  intros Hsorted Hle. rewrite List.map_app. apply StronglySorted_app.
  split; [|split; [assumption|repeat constructor]].
  intros x1 x2 Hx1 Hx2. cbn in Hx2. apply list_elem_of_singleton in Hx2. subst x2.
  apply list_elem_of_In, List.in_map_iff in Hx1. destruct Hx1 as (p & <- & Hp).
  rewrite List.Forall_forall in Hle. apply (Hle p Hp).
Qed.

Lemma breadth_first_iteration f f' :
  breadth_first f -> iteration f = Next f' -> breadth_first f'.
Proof.
  intros (d & Hd0 & (q1 & q2 & Hq12 & Hq1 & Hq2) & Hfetched & Hsorted) Hit.
  destruct (iteration_Next_cases f f' Hit)
    as (url & depth & rest & Hq & Hlt & Hcase).
  rewrite Hq in Hq12.
  destruct q1 as [|p1 q1'].
  - (* the head opens the next level *)
    cbn in Hq12. subst q2. apply List.Forall_cons_iff in Hq2. cbn in Hq2.
    destruct Hq2 as [Hdepth Hrest]. subst depth.
    destruct Hcase as [[_ ->]|(_ & _ & ->)].
    + exists (d + 1). split; [lia|]. split; [|split].
      * exists rest, []. rewrite List.app_nil_r. repeat split; [assumption|constructor].
      * cbn. eapply List.Forall_impl; [|exact Hfetched]. cbn. intros; lia.
      * exact Hsorted.
    + exists (d + 1). split; [lia|]. split; [|split].
      * exists rest, (enqueued url (d + 1) ({[url]} ∪ visited (self f))).
        split; [reflexivity|]. split; [assumption|].
        eapply List.Forall_impl; [|apply enqueued_items]. cbn. tauto.
      * cbn. apply List.Forall_app. split; [|repeat constructor; cbn; lia].
        eapply List.Forall_impl; [|exact Hfetched]. cbn. intros; lia.
      * cbn. apply requests_sorted_snoc; [assumption|].
        eapply List.Forall_impl; [|exact Hfetched]. cbn. intros; lia.
  - (* the head belongs to the current level *)
    cbn in Hq12. injection Hq12 as <- ->.
    apply List.Forall_cons_iff in Hq1. cbn in Hq1. destruct Hq1 as [Hdepth Hq1]. subst depth.
    destruct Hcase as [[_ ->]|(_ & _ & ->)].
    + exists d. split; [lia|]. split; [|split; assumption].
      exists q1', q2. repeat split; assumption.
    + exists d. split; [lia|]. split; [|split].
      * exists q1', (q2 ++ enqueued url d ({[url]} ∪ visited (self f))).
        split; [cbn; rewrite List.app_assoc; reflexivity|]. split; [assumption|].
        apply List.Forall_app. split; [assumption|].
        eapply List.Forall_impl; [|apply enqueued_items]. cbn. tauto.
      * cbn. apply List.Forall_app. split; [assumption|repeat constructor; cbn; lia].
      * cbn. apply requests_sorted_snoc; assumption.
Qed.

(** X7. The crawl is breadth-first: requests go out by non-decreasing depth,
    and the queue always holds the rest of one level followed by items of
    the next level only. *)
Theorem crawl_breadth_first f :
  reachable f ->
  StronglySorted Z.le (List.map snd (fetched (self f)))
  ∧ ∃ d, 0 <= d ∧ levelled d (queue f)
         ∧ Forall (fun p => snd p <= d) (fetched (self f)).
Proof.
  intros Hreach.
  assert (breadth_first f) as (d & Hd & Hlev & Hfetched & Hsorted).
  { induction Hreach as [|f f' _ IH Hit].
    - exists 0. split; [lia|]. split; [|split; constructor].
      exists [(start_url, 0)], []. repeat split; repeat constructor.
    - eapply breadth_first_iteration; eassumption. }
  split; [assumption|]. exists d. repeat split; assumption.
Qed.

Lemma depths_in_range_iteration f f' :
  depths_in_range f -> iteration f = Next f' -> depths_in_range f'.
Proof.
  unfold Frontier.depths_in_range. intros Hrange Hit.
  destruct (iteration_Next_cases f f' Hit)
    as (url & depth & rest & Hq & Hlt & [[_ ->]|(_ & _ & ->)]);
    rewrite Hq in Hrange; apply List.Forall_cons_iff in Hrange; cbn in Hrange;
    destruct Hrange as [Hhead Hrest]; cbn; [assumption|].
  apply List.Forall_app. split; [assumption|].
  eapply List.Forall_impl; [|apply enqueued_items]. cbn. intros p (-> & ? & _). lia.
Qed.

(** X8. With a depth limit that is not negative, every queued item has a
    depth between zero and the limit, so the depth test of the loop never
    skips anything: an iteration that stays in the loop requests the head of
    the queue. *)
Theorem crawl_depth_guard_idle f :
  0 <= max_depth ->
  reachable f ->
  Forall (fun p => 0 <= snd p <= max_depth) (queue f)
  ∧ ∀ f', iteration f = Next f' ->
          ∃ url depth rest, queue f = (url, depth) :: rest
                            ∧ f' = fetch_frame f url depth rest.
Proof.
  intros Hdepth Hreach.
  assert (depths_in_range f) as Hrange.
  { induction Hreach as [|f f' _ IH Hit].
    - repeat constructor; cbn; lia.
    - eapply depths_in_range_iteration; eassumption. }
  split; [exact Hrange|]. intros f' Hit.
  destruct (iteration_Next_cases f f' Hit)
    as (url & depth & rest & Hq & Hlt & [[Hdeep _]|(_ & _ & ->)]).
  - unfold Frontier.depths_in_range in Hrange. rewrite Hq in Hrange.
    apply List.Forall_cons_iff in Hrange. cbn in Hrange. lia.
  - exists url, depth, rest. split; [assumption|reflexivity].
Qed.

Lemma fragment_free_iteration f f' :
  fragment_free f -> iteration f = Next f' -> fragment_free f'.
Proof.
  intros [Hqueue Hfetched] Hit.
  destruct (iteration_Next_cases f f' Hit)
    as (url & depth & rest & Hq & Hlt & [[_ ->]|(_ & _ & ->)]);
    rewrite Hq in Hqueue; apply List.Forall_cons_iff in Hqueue; cbn in Hqueue;
    destruct Hqueue as [Hhead Hrest]; split; cbn; try assumption.
  - apply List.Forall_app. split; [assumption|].
    eapply List.Forall_impl; [|apply enqueued_items]. cbn. tauto.
  - apply List.Forall_app. split; [assumption|].
    apply List.Forall_cons; [exact Hhead|constructor].
Qed.

(** X9. Fragments are cut off before a link is queued: apart from the seed,
    which is requested as given, no requested URL holds a [#]. *)
Theorem crawl_fragment_free f :
  reachable f ->
  Forall (fun p => fst p = start_url ∨ has_no_fragment (fst p) = true) (fetched (self f))
  ∧ Forall (fun p => fst p = start_url ∨ has_no_fragment (fst p) = true) (queue f).
Proof.
  intros Hreach.
  assert (fragment_free f) as [Hqueue Hfetched].
  { induction Hreach as [|f f' _ IH Hit].
    - split; [|constructor]. apply List.Forall_cons; [left; reflexivity|constructor].
    - eapply fragment_free_iteration; eassumption. }
  split; assumption.
Qed.

Lemma run_within_budget (n : nat) :
  ∀ f, depths_in_range f ->
       (Z.to_nat (max_pages - Z.of_nat (size (visited (self f)))) <= n)%nat ->
       ∃ o, run (S n) f = Some o.
Proof.
  induction n as [|n IH]; intros f Hrange Hbudget;
    destruct (iteration f) as [f'|o] eqn:Hit;
    try (exists o; cbn; rewrite Hit; reflexivity);
    destruct (iteration_Next_cases f f' Hit)
      as (url & depth & rest & Hq & Hlt & [[Hdeep _]|(_ & Hin & Hf')]);
    try (unfold Frontier.depths_in_range in Hrange; rewrite Hq in Hrange;
         apply List.Forall_cons_iff in Hrange; cbn in Hrange; lia);
    try lia.
  destruct (IH f') as (o & Hrun).
  - eapply depths_in_range_iteration; eassumption.
  - rewrite Hf'. cbn [Frontier.fetch_frame self visited].
    rewrite size_union by (apply disjoint_singleton_l; assumption).
    rewrite size_singleton. lia.
  - exists o. change (run (S (S n)) f) with
      (match iteration f with Done o' => Some o' | Next f'' => run (S n) f'' end).
    rewrite Hit. exact Hrun.
Qed.

(** X23. With a depth limit that is not negative, [load] ends within
    [max_pages + 1] passes through its loop, whatever the site. *)
Theorem load_iteration_bound :
  0 <= max_depth ->
  ∃ o, load (S (Z.to_nat max_pages)) = Some o.
Proof.
  intros Hdepth. apply run_within_budget.
  - repeat constructor; cbn; lia.
  - cbn. rewrite size_empty. lia.
Qed.

End FrontierFacts.

(** ** Text cleaning *)

Section CleanTextFacts.

Import PyStr CleanText.

Lemma lstrip_all_chars P s : all_chars P s = true -> all_chars P (lstrip s) = true.
Proof.
  induction s as [|c s IH]; [reflexivity|]. cbn. intros H.
  apply andb_true_iff in H. destruct H as [Hc Hs].
  destruct (isspace c); [apply IH; assumption|]. cbn. rewrite Hc, Hs. reflexivity.
Qed.

Lemma rstrip_all_chars P s : all_chars P s = true -> all_chars P (rstrip s) = true.
Proof.
  induction s as [|c s IH]; [reflexivity|]. cbn. intros H.
  apply andb_true_iff in H. destruct H as [Hc Hs]. specialize (IH Hs).
  destruct (rstrip s) as [|d u].
  - destruct (isspace c); [reflexivity|]. cbn. rewrite Hc. reflexivity.
  - cbn in *. rewrite Hc, IH. reflexivity.
Qed.

Lemma strip_all_chars P s : all_chars P s = true -> all_chars P (strip s) = true.
Proof. intros H. apply rstrip_all_chars, lstrip_all_chars, H. Qed.

Lemma no_double_space_tail c s : no_double_space (String c s) = true -> no_double_space s = true.
Proof.
  destruct s as [|d u]; [reflexivity|]. cbn [no_double_space]. intros H.
  apply andb_true_iff in H. tauto.
Qed.

Lemma lstrip_no_double_space s : no_double_space s = true -> no_double_space (lstrip s) = true.
Proof.
  induction s as [|c s IH]; [reflexivity|]. intros H. cbn [lstrip].
  destruct (isspace c); [|assumption]. apply IH. eapply no_double_space_tail. eassumption.
Qed.

Lemma rstrip_cons c s :
  rstrip (String c s) = EmptyString
  ∨ rstrip (String c s) = String c (rstrip s).
Proof.
  cbn. destruct (rstrip s) as [|d u]; [|right; reflexivity].
  destruct (isspace c); [left|right]; reflexivity.
Qed.

Lemma rstrip_head_char c d s u :
  rstrip (String d s) = String c u -> c = d.
Proof.
  destruct (rstrip_cons d s) as [H|H]; rewrite H; [discriminate|]. intros [= ->]. reflexivity.
Qed.

Lemma rstrip_no_double_space s : no_double_space s = true -> no_double_space (rstrip s) = true.
Proof.
  induction s as [|c s IH]; [reflexivity|]. intros H.
  pose proof (no_double_space_tail c s H) as Hs. specialize (IH Hs).
  destruct (rstrip_cons c s) as [Hr|Hr]; rewrite Hr; [reflexivity|].
  destruct s as [|d u]; [reflexivity|].
  destruct (rstrip (String d u)) as [|d' u'] eqn:Hd; [reflexivity|].
  apply rstrip_head_char in Hd as Heq. subst d'.
  cbn [no_double_space] in H |- *. apply andb_true_iff in H. destruct H as [Hcd _].
  rewrite Hcd. exact IH.
Qed.

Lemma strip_no_double_space s : no_double_space s = true -> no_double_space (strip s) = true.
Proof. intros H. apply rstrip_no_double_space, lstrip_no_double_space, H. Qed.

(** A string without whitespace at its ends is left alone by [strip]. *)
Lemma lstrip_fixed s : starts_with_space s = false -> lstrip s = s.
Proof. destruct s as [|c s]; [reflexivity|]. cbn. intros ->. reflexivity. Qed.

Lemma rstrip_fixed s : ends_with_space s = false -> rstrip s = s.
Proof.
  induction s as [|c s IH]; [reflexivity|]. cbn [ends_with_space rstrip].
  destruct s as [|d u].
  - cbn. intros ->. reflexivity.
  - intros H. rewrite (IH H). reflexivity.
Qed.

Lemma strip_fixed s :
  starts_with_space s = false -> ends_with_space s = false -> strip s = s.
Proof. intros Hs He. unfold strip. rewrite (lstrip_fixed s Hs). apply rstrip_fixed, He. Qed.

Lemma strip_stripped s :
  starts_with_space (strip s) = false ∧ ends_with_space (strip s) = false.
Proof.
  unfold strip. split; [apply rstrip_head, lstrip_head|apply rstrip_tail].
Qed.

Lemma cons_head_Forall (P : string -> Prop) c l :
  (∀ x, P x -> P (String c x)) -> P (String c EmptyString) ->
  Forall P l -> Forall P (cons_head c l).
Proof.
  intros Hstep Hone Hl. destruct l as [|x xs]; cbn.
  - repeat constructor. assumption.
  - apply List.Forall_cons_iff in Hl. constructor; [apply Hstep|]; tauto.
Qed.

(** Induction on strings two characters at a time, as [splitlines] and
    [split_double_space] recurse. *)
Lemma string_pair_ind (Q : string -> Prop) :
  Q EmptyString ->
  (∀ c, Q (String c EmptyString)) ->
  (∀ c c' s, Q s -> Q (String c' s) -> Q (String c (String c' s))) ->
  ∀ s, Q s.
Proof.
  intros Hnil Hone Hstep s.
  assert (Q s ∧ ∀ c, Q (String c s)) as [H _]; [|exact H].
  induction s as [|c' s [IH1 IH2]].
  - split; [assumption|apply Hone].
  - split; [apply IH2|]. intros c. apply Hstep; [assumption|apply IH2].
Qed.

Lemma splitlines_pair c c' s :
  splitlines (String c (String c' s))
  = if is_linebreak c then
      EmptyString :: (if Ascii.eqb c "013" && Ascii.eqb c' "010" then splitlines s
                      else splitlines (String c' s))
    else cons_head c (splitlines (String c' s)).
Proof. reflexivity. Qed.

Lemma split_double_space_pair c c' s :
  split_double_space (String c (String c' s))
  = if Ascii.eqb c " " && Ascii.eqb c' " " then EmptyString :: split_double_space s
    else cons_head c (split_double_space (String c' s)).
Proof. reflexivity. Qed.

(** The lines of [splitlines] hold no line boundary, and only characters of
    the text. *)
Lemma splitlines_lines P s :
  all_chars P s = true ->
  Forall (fun line => all_chars (fun c => negb (is_linebreak c) && P c) line = true)
    (splitlines s).
Proof.
  induction s as [| c | c c' s IH IH'] using string_pair_ind; intros H.
  - constructor.
  - cbn in *. rewrite andb_true_r in H. destruct (is_linebreak c) eqn:Hbreak.
    + repeat constructor.
    + cbn. repeat constructor. cbn. rewrite Hbreak, H. reflexivity.
  - cbn [all_chars] in H. apply andb_true_iff in H. destruct H as [Hc Hs].
    pose proof Hs as Hs'. cbn [all_chars] in Hs'. apply andb_true_iff in Hs'.
    rewrite splitlines_pair. destruct (is_linebreak c) eqn:Hbreak.
    + constructor; [reflexivity|].
      destruct (Ascii.eqb c "013" && Ascii.eqb c' "010"); [apply IH; tauto|apply IH'; assumption].
    + apply cons_head_Forall.
      * intros x Hx. cbn. rewrite Hbreak, Hc, Hx. reflexivity.
      * cbn. rewrite Hbreak, Hc. reflexivity.
      * apply IH'. assumption.
Qed.

Lemma split_double_space_cons s : ∃ x xs, split_double_space s = x :: xs.
Proof.
  induction s as [| c | c c' s _ [x [xs IH]]] using string_pair_ind.
  - eexists _, _. reflexivity.
  - eexists _, _. reflexivity.
  - rewrite split_double_space_pair. destruct (Ascii.eqb c " " && Ascii.eqb c' " ").
    + eexists _, _. reflexivity.
    + rewrite IH. eexists _, _. reflexivity.
Qed.

(** The first piece is empty or starts as the line does. *)
Lemma split_double_space_first c s :
  ∃ x xs, split_double_space (String c s) = x :: xs
          ∧ (x = EmptyString ∨ ∃ u, x = String c u).
Proof.
  destruct s as [|c' s].
  - eexists _, _. split; [reflexivity|]. right. eexists. reflexivity.
  - rewrite split_double_space_pair. destruct (Ascii.eqb c " " && Ascii.eqb c' " ").
    + eexists _, _. split; [reflexivity|]. left. reflexivity.
    + destruct (split_double_space_cons (String c' s)) as (x & xs & ->).
      eexists _, _. split; [reflexivity|]. right. eexists. reflexivity.
Qed.

(** The pieces of [split_double_space] hold no two blanks in a row, and only
    characters of the line. *)
Lemma split_double_space_pieces P s :
  all_chars P s = true ->
  Forall (fun piece => no_double_space piece = true ∧ all_chars P piece = true)
    (split_double_space s).
Proof.
  induction s as [| c | c c' s IH IH'] using string_pair_ind; intros H.
  - repeat constructor.
  - repeat constructor. assumption.
  - cbn [all_chars] in H. apply andb_true_iff in H. destruct H as [Hc Hs].
    pose proof Hs as Hs'. cbn [all_chars] in Hs'. apply andb_true_iff in Hs'.
    rewrite split_double_space_pair.
    destruct (Ascii.eqb c " " && Ascii.eqb c' " ") eqn:Hboth.
    + constructor; [split; reflexivity|]. apply IH. tauto.
    + specialize (IH' Hs).
      destruct (split_double_space_first c' s) as (x & xs & Hx & Hfirst).
      rewrite Hx in *. apply List.Forall_cons_iff in IH'. destruct IH' as [[Hnd Hall] Hrest].
      cbn [cons_head]. constructor; [|assumption]. split.
      * destruct Hfirst as [->|[u ->]]; [reflexivity|].
        cbn [no_double_space]. rewrite Hboth. exact Hnd.
      * cbn. rewrite Hc, Hall. reflexivity.
Qed.

(** Every chunk that is kept is tidy. *)
Lemma clean_chunks_Forall_tidy text : Forall tidy (clean_chunks text).
Proof.
  unfold clean_chunks. apply List.Forall_forall. intros chunk Hchunk.
  apply List.filter_In in Hchunk. destruct Hchunk as [Hchunk Hnonempty].
  apply List.in_flat_map in Hchunk. destruct Hchunk as (line & Hline & Hpiece).
  apply List.in_map_iff in Hpiece. destruct Hpiece as (piece & <- & Hpiece).
  apply List.in_map_iff in Hline. destruct Hline as (raw & <- & Hraw).
  assert (all_chars (fun _ => true) text = true) as Htext
    by (clear; induction text as [|c t IH]; [reflexivity|exact IH]).
  pose proof (splitlines_lines _ text Htext) as Hlines.
  rewrite List.Forall_forall in Hlines. specialize (Hlines raw Hraw).
  assert (all_chars (fun c => negb (is_linebreak c)) raw = true) as Hrawb.
  { clear -Hlines. induction raw as [|c r IH]; [reflexivity|]. cbn in *.
    apply andb_true_iff in Hlines. destruct Hlines as [Hc Hr].
    rewrite andb_true_r in Hc. rewrite Hc, (IH Hr). reflexivity. }
  pose proof (split_double_space_pieces _ _ (strip_all_chars _ _ Hrawb)) as Hpieces.
  rewrite List.Forall_forall in Hpieces. destruct (Hpieces piece Hpiece) as [Hnd Hall].
  destruct (strip_stripped piece) as [Hstart Hend].
  repeat split; try assumption.
  - apply strip_all_chars. assumption.
  - apply strip_no_double_space. assumption.
Qed.

(** A string without a line boundary is its own single line. *)
Lemma splitlines_single s :
  all_chars (fun c => negb (is_linebreak c)) s = true ->
  nonempty s = true ->
  splitlines s = [s].
Proof.
  induction s as [|c s IH]; [discriminate|]. cbn [all_chars splitlines]. intros H _.
  apply andb_true_iff in H. destruct H as [Hc Hs]. apply negb_true_iff in Hc. rewrite Hc.
  destruct s as [|d u]; [reflexivity|]. rewrite (IH Hs eq_refl). reflexivity.
Qed.

Lemma splitlines_line_feed s t :
  all_chars (fun c => negb (is_linebreak c)) s = true ->
  splitlines (s +:+ String "010" t) = s :: splitlines t.
Proof.
  induction s as [|c s IH]; intros H.
  - change (EmptyString +:+ String "010" t) with (String "010" t).
    cbn [splitlines]. change (is_linebreak "010") with true. cbn match.
    destruct t as [|c' t']; reflexivity.
  - cbn [all_chars] in H. apply andb_true_iff in H. destruct H as [Hc Hs].
    apply negb_true_iff in Hc.
    change (String c s +:+ String "010" t) with (String c (s +:+ String "010" t)).
    cbn [splitlines]. rewrite Hc, (IH Hs). reflexivity.
Qed.

(** Joining tidy lines and splitting them again gives the lines back. *)
Lemma splitlines_join cs :
  Forall tidy cs -> splitlines (join (String "010" EmptyString) cs) = cs.
Proof.
  induction cs as [|c cs IH]; intros Hcs; [reflexivity|].
  apply List.Forall_cons_iff in Hcs. destruct Hcs as [(Hne & _ & _ & Hnb & _) Hrest].
  destruct cs as [|c2 cs'].
  - cbn. apply splitlines_single; assumption.
  - change (join (String "010" EmptyString) (c :: c2 :: cs'))
      with (c +:+ String "010" EmptyString +:+ join (String "010" EmptyString) (c2 :: cs')).
    change (String "010" EmptyString +:+ join (String "010" EmptyString) (c2 :: cs'))
      with (String "010" (join (String "010" EmptyString) (c2 :: cs'))).
    rewrite (splitlines_line_feed _ _ Hnb), (IH Hrest). reflexivity.
Qed.

Lemma split_double_space_fixed s :
  no_double_space s = true -> split_double_space s = [s].
Proof.
  induction s as [| c | c c' s _ IH] using string_pair_ind; intros H; try reflexivity.
  cbn [no_double_space] in H. apply andb_true_iff in H. destruct H as [Hboth Hs].
  apply negb_true_iff in Hboth. rewrite split_double_space_pair, Hboth.
  rewrite (IH Hs). reflexivity.
Qed.

(** Tidy lines come out of the cleaning as they went in. *)
Lemma clean_chunks_join cs :
  Forall tidy cs -> clean_chunks (join (String "010" EmptyString) cs) = cs.
Proof.
  intros Hcs. unfold clean_chunks. rewrite (splitlines_join cs Hcs).
  induction Hcs as [|c cs (Hne & Hstart & Hend & Hnb & Hnd) _ IH]; [reflexivity|].
  cbn [List.map List.flat_map]. rewrite (strip_fixed c Hstart Hend).
  rewrite (split_double_space_fixed c Hnd). cbn [List.map app].
  rewrite (strip_fixed c Hstart Hend). cbn [List.filter]. rewrite Hne, IH. reflexivity.
Qed.

Lemma all_chars_weaken (P Q : ascii -> bool) s :
  (∀ c, P c = true -> Q c = true) -> all_chars P s = true -> all_chars Q s = true.
Proof.
  intros HPQ. induction s as [|c s IH]; [reflexivity|]. cbn. intros H.
  apply andb_true_iff in H. destruct H as [Hc Hs]. rewrite (HPQ c Hc), (IH Hs). reflexivity.
Qed.

Lemma all_chars_app P s t :
  all_chars P s = true -> all_chars P t = true -> all_chars P (s +:+ t) = true.
Proof.
  intros Hs Ht. induction s as [|c s IH]; [exact Ht|].
  change (String c s +:+ t) with (String c (s +:+ t)). cbn [all_chars] in *.
  apply andb_true_iff in Hs. destruct Hs as [Hc Hs]. rewrite Hc, (IH Hs). reflexivity.
Qed.

Lemma join_all_chars P sep cs :
  all_chars P sep = true -> Forall (fun c => all_chars P c = true) cs ->
  all_chars P (join sep cs) = true.
Proof.
  intros Hsep Hcs. induction Hcs as [|c cs Hc Hrest IH]; [reflexivity|].
  destruct cs as [|c2 cs']; [exact Hc|].
  change (join sep (c :: c2 :: cs')) with (c +:+ sep +:+ join sep (c2 :: cs')).
  apply all_chars_app; [exact Hc|]. apply all_chars_app; [exact Hsep|exact IH].
Qed.

(** The chunks are made of characters of the text. *)
Lemma clean_chunks_all_chars P text :
  all_chars P text = true -> Forall (fun c => all_chars P c = true) (clean_chunks text).
Proof.
  intros Htext. unfold clean_chunks. apply List.Forall_forall. intros chunk Hchunk.
  apply List.filter_In in Hchunk. destruct Hchunk as [Hchunk _].
  apply List.in_flat_map in Hchunk. destruct Hchunk as (line & Hline & Hpiece).
  apply List.in_map_iff in Hpiece. destruct Hpiece as (piece & <- & Hpiece).
  apply List.in_map_iff in Hline. destruct Hline as (raw & <- & Hraw).
  pose proof (splitlines_lines _ text Htext) as Hlines.
  rewrite List.Forall_forall in Hlines. specialize (Hlines raw Hraw).
  assert (all_chars P raw = true) as Hrawp.
  { eapply all_chars_weaken; [|exact Hlines]. intros c Hc.
    apply andb_true_iff in Hc. tauto. }
  pose proof (split_double_space_pieces _ _ (strip_all_chars _ _ Hrawp)) as Hpieces.
  rewrite List.Forall_forall in Hpieces. destruct (Hpieces piece Hpiece) as [_ Hall].
  apply strip_all_chars, Hall.
Qed.

Lemma clean_text_ascii text : is_ascii text = true -> is_ascii (clean_text text) = true.
Proof.
  intros Htext. unfold is_ascii, clean_text.
  apply join_all_chars; [reflexivity|apply clean_chunks_all_chars, Htext].
Qed.

(** X10. For ASCII text, where [splitlines] and [strip] are those of
    [str]: the cleaned text is ASCII again; its lines, as [splitlines] reads
    them back, are the chunks that were kept; and every one of them is tidy:
    not empty, without whitespace at either end, without a line boundary
    inside and without two blanks in a row. *)
Theorem clean_text_lines_tidy text :
  is_ascii text = true ->
  is_ascii (clean_text text) = true
  ∧ splitlines (clean_text text) = clean_chunks text
  ∧ Forall tidy (clean_chunks text).
Proof.
  intros Hascii. pose proof (clean_chunks_Forall_tidy text) as Htidy.
  split; [apply clean_text_ascii, Hascii|].
  split; [|exact Htidy]. unfold clean_text. apply splitlines_join. exact Htidy.
Qed.

(** X11. Cleaning is idempotent on ASCII text: the cleaned text is ASCII
    again, and a second cleaning leaves it as it is. *)
Theorem clean_text_idempotent text :
  is_ascii text = true ->
  is_ascii (clean_text text) = true
  ∧ clean_text (clean_text text) = clean_text text.
Proof.
  intros Hascii. split; [apply clean_text_ascii, Hascii|].
  unfold clean_text. rewrite clean_chunks_join; [reflexivity|].
  apply clean_chunks_Forall_tidy.
Qed.

Lemma lstrip_all_space s : all_chars isspace s = true -> lstrip s = EmptyString.
Proof.
  induction s as [|c s IH]; [reflexivity|]. cbn. intros H.
  apply andb_true_iff in H. destruct H as [-> Hs]. apply IH, Hs.
Qed.

(** X12. Text that is only whitespace, line boundaries included, cleans to
    the empty string. *)
Theorem clean_text_blank text :
  all_chars isspace text = true -> clean_text text = EmptyString.
Proof.
  intros Hblank. unfold clean_text.
  replace (clean_chunks text) with (@nil string); [reflexivity|].
  symmetry. unfold clean_chunks.
  pose proof (splitlines_lines _ text Hblank) as Hlines.
  induction Hlines as [|line lines Hline _ IH]; [reflexivity|].
  cbn [List.map List.flat_map].
  assert (strip line = EmptyString) as ->.
  { unfold strip. rewrite lstrip_all_space; [reflexivity|].
    eapply all_chars_weaken; [|exact Hline]. intros c Hc.
    apply andb_true_iff in Hc. tauto. }
  cbn. exact IH.
Qed.

End CleanTextFacts.

(** ** The store under ingestion *)

Section StoreFacts.

Import GraphBuilder StoreInvariants.

Variable str_strip str_upper : string -> string.
Variable extract_graph_data : string -> option GraphData.
Variable query_raises : Cypher -> bool.

Local Abbreviation ingest_documents :=
  (ingest_documents str_strip str_upper extract_graph_data query_raises).
Local Abbreviation accepted := (accepted query_raises).
Local Abbreviation node_statement := (GraphBuilder.node_statement str_strip).
Local Abbreviation relationship_statement :=
  (GraphBuilder.relationship_statement str_strip str_upper).
Local Abbreviation chunk_statements :=
  (chunk_statements str_strip str_upper extract_graph_data).
Local Abbreviation chunk_fails :=
  (chunk_fails str_strip str_upper extract_graph_data query_raises).
Local Abbreviation accepted_for :=
  (accepted_for str_strip str_upper extract_graph_data query_raises).
Local Abbreviation statuses := (statuses str_strip str_upper extract_graph_data query_raises).
Local Abbreviation label_of := (label_of str_upper).
Local Abbreviation normalized := (normalized str_strip).
Local Abbreviation statement_normal := (statement_normal str_strip).

Lemma statuses_length documents : ∀ k, List.length (statuses k documents) = List.length documents.
Proof. induction documents as [|doc rest IH]; intros k; cbn; [|rewrite IH]; reflexivity. Qed.

Lemma statuses_lookup documents :
  ∀ k i doc, documents !! i = Some doc ->
             statuses k documents !! i
             = Some (if chunk_fails doc then Failed (k + i + 1) else Ingested (k + i + 1)).
Proof.
  induction documents as [|d rest IH]; intros k i doc Hi; [discriminate|].
  destruct i as [|i].
  - injection Hi as ->. cbn. unfold GraphBuilder.status. rewrite Nat.add_0_r. reflexivity.
  - change (statuses k (d :: rest) !! S i) with (statuses (S k) rest !! i).
    change ((d :: rest) !! S i) with (rest !! i) in Hi.
    rewrite (IH (S k) i doc Hi). replace (S k + i + 1)%nat with (k + S i + 1)%nat by lia.
    reflexivity.
Qed.

(** X13. [ingest_documents] never lets an exception out, whatever the
    extraction and the store do, and prints exactly one status line per
    chunk, in order and numbered from one: a failure line for a chunk whose
    extraction or statements failed, a success line otherwise. *)
Theorem ingest_documents_reports documents w :
  let after := ingest_documents documents w in
  fst after = Ok tt
  ∧ List.length (printed (snd after))
    = (List.length (printed w) + List.length documents)%nat
  ∧ ∀ i doc, documents !! i = Some doc ->
      printed (snd after) !! (List.length (printed w) + i)%nat
      = Some (if chunk_fails doc then Failed (i + 1) else Ingested (i + 1)).
Proof.
  intros after. subst after. unfold GraphBuilder.ingest_documents.
  rewrite ingest_from_spec. cbn [fst snd printed].
  split; [reflexivity|]. split.
  - rewrite List.length_app, statuses_length. reflexivity.
  - intros i doc Hi. rewrite lookup_app_r by lia.
    replace (List.length (printed w) + i - List.length (printed w))%nat with i by lia.
    apply (statuses_lookup documents 0 i doc Hi).
Qed.

Lemma execute_grows q db :
  dom (entities db) ⊆ dom (entities (execute q db))
  ∧ dom (edges db) ⊆ dom (edges (execute q db)).
Proof.
  destruct q as [id type|source target label description]; cbn.
  - split; [|reflexivity]. rewrite dom_insert_L. apply union_subseteq_r.
  - destruct (_ && _); cbn; split; try reflexivity.
    rewrite dom_insert_L. apply union_subseteq_r.
Qed.

Lemma execute_all_grows qs :
  ∀ db, dom (entities db) ⊆ dom (entities (execute_all qs db))
        ∧ dom (edges db) ⊆ dom (edges (execute_all qs db)).
Proof.
  induction qs as [|q qs IH]; intros db; [split; reflexivity|].
  cbn. fold (execute_all qs (execute q db)).
  destruct (execute_grows q db) as [He Hr]. destruct (IH (execute q db)) as [He' Hr'].
  split; etrans; eassumption.
Qed.

(** X14. Ingestion only adds to the store: every entity id and every
    relationship triple present before is present after. *)
Theorem ingest_documents_grows documents w :
  let after := graph (snd (ingest_documents documents w)) in
  dom (entities (graph w)) ⊆ dom (entities after)
  ∧ dom (edges (graph w)) ⊆ dom (edges after).
Proof.
  intros after. subst after. unfold GraphBuilder.ingest_documents.
  rewrite ingest_from_spec. cbn [snd graph]. apply execute_all_grows.
Qed.

Lemma execute_well_linked q db : well_linked db -> well_linked (execute q db).
Proof.
  intros Hdb. destruct q as [id type|source target label description]; cbn.
  - intros s l t Hedge. cbn in *. destruct (Hdb s l t Hedge) as [Hs Ht].
    rewrite !lookup_insert_is_Some. split; destruct (decide (id = s)), (decide (id = t)); tauto.
  - destruct (bool_decide (is_Some (entities db !! source))) eqn:Hs; [|exact Hdb].
    destruct (bool_decide (is_Some (entities db !! target))) eqn:Ht; [|exact Hdb].
    apply bool_decide_eq_true in Hs, Ht. cbn. intros s l t Hedge. cbn in *.
    apply lookup_insert_is_Some in Hedge. destruct Hedge as [[= <- <- <-]|[_ Hedge]].
    + split; assumption.
    + apply (Hdb s l t Hedge).
Qed.

Lemma execute_all_well_linked qs : ∀ db, well_linked db -> well_linked (execute_all qs db).
Proof.
  induction qs as [|q qs IH]; intros db Hdb; [exact Hdb|].
  cbn. fold (execute_all qs (execute q db)). apply IH, execute_well_linked, Hdb.
Qed.

(** X15. Ingestion never leaves a relationship without its ends: if every
    relationship of the store has both ends in the store before, so it is
    after, whatever failed on the way. *)
Theorem ingest_documents_well_linked documents w :
  well_linked (graph w) ->
  well_linked (graph (snd (ingest_documents documents w))).
Proof.
  intros Hw. unfold GraphBuilder.ingest_documents.
  rewrite ingest_from_spec. cbn [snd graph]. apply execute_all_well_linked, Hw.
Qed.

(** [strip] of [PyStr] is idempotent. *)
Lemma strip_idempotent s : PyStr.strip (PyStr.strip s) = PyStr.strip s.
Proof. destruct (strip_stripped s) as [Hs He]. apply strip_fixed; assumption. Qed.

(** [replace(" ", "_")] leaves no blank. *)
Lemma replace_no_space s : has_no_space (PyStr.replace " " "_" s) = true.
Proof.
  unfold has_no_space. induction s as [|c t IH]; [reflexivity|].
  cbn [PyStr.replace PyStr.all_chars]. rewrite IH, andb_true_r.
  destruct (Ascii.eqb c " ") eqn:Hc; [reflexivity|]. rewrite Hc. reflexivity.
Qed.

Section Idempotent.

Hypothesis str_strip_idempotent : ∀ s, str_strip (str_strip s) = str_strip s.

Lemma chunk_statements_normal doc : Forall statement_normal (chunk_statements doc).
Proof.
  unfold GraphBuilder.chunk_statements.
  destruct (extract_graph_data (WebLoader.page_content doc)) as [data|]; [|constructor].
  unfold GraphBuilder.statements. apply List.Forall_app. split.
  - apply List.Forall_forall. intros q Hq. apply List.in_map_iff in Hq.
    destruct Hq as (node & <- & _). exact (str_strip_idempotent _).
  - apply List.Forall_forall. intros q Hq. apply list_elem_of_In, list_elem_of_omap in Hq.
    destruct Hq as (rel & _ & Hrel). unfold GraphBuilder.relationship_statement in Hrel.
    destruct (rel_target rel) as [[|c t]|]; try discriminate. injection Hrel as <-.
    split; [exact (str_strip_idempotent _)|]. split; [exact (str_strip_idempotent _)|].
    exact (replace_no_space _).
Qed.

Lemma accepted_for_normal documents : Forall statement_normal (accepted_for documents).
Proof.
  unfold GraphBuilder.accepted_for. apply List.Forall_forall. intros q Hq.
  apply List.in_flat_map in Hq. destruct Hq as (doc & _ & Hq). apply accepted_In in Hq.
  pose proof (chunk_statements_normal doc) as Hdoc. rewrite List.Forall_forall in Hdoc.
  apply Hdoc, Hq.
Qed.

End Idempotent.

Lemma execute_normalized q db :
  statement_normal q -> normalized db -> normalized (execute q db).
Proof.
  intros Hq [Hent Hedge]. destruct q as [id type|source target label description]; cbn in *.
  - split; [|exact Hedge]. intros i Hi. cbn in Hi.
    apply lookup_insert_is_Some in Hi. destruct Hi as [<-|[_ Hi]]; [assumption|apply Hent, Hi].
  - destruct (_ && _); [|split; assumption]. split; [exact Hent|].
    intros s l t Hi. cbn in Hi. apply lookup_insert_is_Some in Hi.
    destruct Hi as [[= <- <- <-]|[_ Hi]]; [assumption|apply Hedge, Hi].
Qed.

Lemma execute_all_normalized qs :
  Forall statement_normal qs -> ∀ db, normalized db -> normalized (execute_all qs db).
Proof.
  induction 1 as [|q qs Hq _ IH]; intros db Hdb; [exact Hdb|].
  cbn. fold (execute_all qs (execute q db)). apply IH, execute_normalized; assumption.
Qed.

(** X16. Ingestion keeps the store normalized.  [str.strip] is idempotent;
    given that of [str_strip], if before the run every entity id and every
    relationship end of the store is left unchanged by [str_strip] and no
    relationship label holds a blank, so it is after the run, whatever the
    extraction returns and whatever fails on the way.  The labels need
    nothing of [str_upper]: [replace(" ", "_")] is applied last. *)
Theorem ingest_documents_normalized documents w :
  (∀ s, str_strip (str_strip s) = str_strip s) ->
  normalized (graph w) ->
  normalized (graph (snd (ingest_documents documents w))).
Proof.
  intros Hstrip Hw. unfold GraphBuilder.ingest_documents.
  rewrite ingest_from_spec. cbn [snd graph].
  apply execute_all_normalized; [apply accepted_for_normal, Hstrip|exact Hw].
Qed.

Lemma assign_cons {K V} `{Countable K} (k : K) (v : V) kvs (m : gmap K V) :
  assign ((k, v) :: kvs) m = assign kvs (<[k:=v]> m).
Proof. reflexivity. Qed.

Lemma assign_lookup_other {K V} `{Countable K} (kvs : list (K * V)) (k : K) :
  ∀ m : gmap K V, ¬ In k (List.map fst kvs) -> assign kvs m !! k = m !! k.
Proof.
  induction kvs as [|[k' v'] kvs IH]; intros m Hk; [reflexivity|].
  rewrite assign_cons, IH by (intros Hin; apply Hk; right; exact Hin).
  apply lookup_insert_ne. intros ->. apply Hk. left. reflexivity.
Qed.

(** After a list of assignments a key that was assigned holds one of the
    values assigned to it. *)
Lemma assign_lookup_assigned {K V} `{Countable K} (kvs : list (K * V)) (k : K) :
  ∀ m : gmap K V, In k (List.map fst kvs) ->
                  ∃ v, In (k, v) kvs ∧ assign kvs m !! k = Some v.
Proof.
  induction kvs as [|[k' v'] kvs IH]; intros m Hk; [destruct Hk|].
  rewrite assign_cons.
  destruct (In_dec (fun x y => decide (x = y)) k (List.map fst kvs)) as [Hin|Hout].
  - destruct (IH (<[k':=v']> m) Hin) as (v & Hv & Hlook). exists v. split; [right|]; assumption.
  - destruct Hk as [Heq|Hin]; [|contradiction]. cbn in Heq. subst k'.
    exists v'. split; [left; reflexivity|].
    rewrite (assign_lookup_other kvs k _ Hout). apply lookup_insert_eq.
Qed.

Lemma accepted_all qs : existsb query_raises qs = false -> accepted qs = qs.
Proof.
  induction qs as [|q qs IH]; [reflexivity|]. cbn. intros H.
  apply orb_false_iff in H. destruct H as [-> Hqs]. rewrite (IH Hqs). reflexivity.
Qed.

(** The store after a chunk that went through: the entities assigned by its
    nodes, then the relationships assigned by its relationships. *)
Lemma ingest_chunk_store doc data w :
  extract_graph_data (WebLoader.page_content doc) = Some data ->
  chunk_fails doc = false ->
  let known :=
    assign (List.map (fun n => (str_strip (node_id n), node_type n)) (nodes data))
      (entities (graph w)) in
  graph (snd (ingest_documents [doc] w))
  = {| entities := known;
       edges := assign (omap (edge_assignment known)
                          (omap relationship_statement (relationships data)))
                  (edges (graph w)) |}.
Proof.
  intros Hdata Hok known. unfold GraphBuilder.ingest_documents.
  rewrite ingest_from_spec. cbn [snd graph GraphBuilder.accepted_for flat_map].
  rewrite List.app_nil_r. unfold GraphBuilder.chunk_statements, GraphBuilder.chunk_fails in *.
  rewrite Hdata in *. rewrite (accepted_all _ Hok). unfold GraphBuilder.statements.
  destruct (statements_staged str_strip str_upper data) as [Hns Hrs].
  unfold execute_all. rewrite List.fold_left_app.
  fold (execute_all (List.map node_statement (nodes data)) (graph w)).
  fold (execute_all (omap relationship_statement (relationships data))
          (execute_all (List.map node_statement (nodes data)) (graph w))).
  rewrite (execute_all_entity_merges _ _ Hns), (execute_all_relationship_merges _ _ Hrs).
  cbn [entities edges]. subst known.
  replace (omap entity_assignment (List.map node_statement (nodes data)))
    with (List.map (fun n => (str_strip (node_id n), node_type n)) (nodes data));
    [reflexivity|].
  clear. induction (nodes data) as [|n ns IH]; [reflexivity|]. cbn. rewrite <- IH. reflexivity.
Qed.

(** X17. After a chunk that went through, every node of the extraction is in
    the store under its stripped id, with the type of a node of the chunk
    that has this stripped id. *)
Theorem ingested_nodes_stored doc data w node :
  extract_graph_data (WebLoader.page_content doc) = Some data ->
  chunk_fails doc = false ->
  In node (nodes data) ->
  ∃ node', In node' (nodes data)
           ∧ str_strip (node_id node') = str_strip (node_id node)
           ∧ entities (graph (snd (ingest_documents [doc] w))) !! str_strip (node_id node)
             = Some (node_type node').
Proof.
  intros Hdata Hok Hnode. rewrite (ingest_chunk_store doc data w Hdata Hok). cbn [entities].
  destruct (assign_lookup_assigned
              (List.map (fun n => (str_strip (node_id n), node_type n)) (nodes data))
              (str_strip (node_id node)) (entities (graph w))) as (v & Hv & Hlook).
  { rewrite List.map_map. cbn. apply (List.in_map (fun n => str_strip (node_id n))), Hnode. }
  apply List.in_map_iff in Hv. destruct Hv as (node' & [= Hid <-] & Hnode').
  exists node'. repeat split; assumption.
Qed.

(** X18. After a chunk that went through, every relationship of the
    extraction with a non-empty target whose two stripped ends are in the
    store is in the store, under the triple of its stripped ends and its
    label. *)
Theorem ingested_relationship_stored doc data w rel target :
  extract_graph_data (WebLoader.page_content doc) = Some data ->
  chunk_fails doc = false ->
  In rel (relationships data) ->
  rel_target rel = Some target ->
  target <> EmptyString ->
  let after := graph (snd (ingest_documents [doc] w)) in
  is_Some (entities after !! str_strip (rel_source rel)) ->
  is_Some (entities after !! str_strip target) ->
  is_Some (edges after
             !! (str_strip (rel_source rel), label_of (rel_type rel), str_strip target)).
Proof.
  intros Hdata Hok Hrel Htarget Hne after. subst after.
  rewrite (ingest_chunk_store doc data w Hdata Hok). cbn [entities edges].
  set (known := assign _ (entities (graph w))). intros Hs Ht.
  destruct target as [|c t]; [contradiction|].
  set (key := (str_strip (rel_source rel), label_of (rel_type rel), str_strip (String c t))).
  destruct (assign_lookup_assigned
              (omap (edge_assignment known)
                 (omap relationship_statement (relationships data)))
              key (edges (graph w))) as (v & _ & Hlook); [|eexists; exact Hlook].
  apply List.in_map_iff.
  exists (key, default EmptyString (rel_description rel)). split; [reflexivity|].
  apply list_elem_of_In, list_elem_of_omap.
  exists (MergeRelationship (str_strip (rel_source rel)) (str_strip (String c t))
            (label_of (rel_type rel)) (default EmptyString (rel_description rel))).
  split.
  - apply list_elem_of_omap. exists rel. split; [apply list_elem_of_In, Hrel|].
    unfold GraphBuilder.relationship_statement. rewrite Htarget. reflexivity.
  - cbn. rewrite !bool_decide_eq_true_2 by assumption. reflexivity.
Qed.

End StoreFacts.

(** ** Graph retrieval, continued *)

Section RetrievalMoreFacts.

Import GraphRAGChain.

Variable Value : Type.
Variable dict_str : list (string * Value) -> string.
Variable str_strip : string -> string.
Variable extract_entity : string -> option string.
Variable graph_query graph_query' : string -> option (list (Row Value)).
Variable listing : list string -> list string.
Variable vector_retriever : string -> option (list WebLoader.Document).

Local Abbreviation fact_of := (fact_of Value dict_str).
Local Abbreviation get_graph_context :=
  (get_graph_context Value dict_str str_strip extract_entity graph_query listing).
Local Abbreviation get_graph_context' :=
  (GraphRAGChain.get_graph_context Value dict_str str_strip extract_entity graph_query'
     listing).
Local Abbreviation hybrid_retrieval :=
  (hybrid_retrieval Value dict_str str_strip extract_entity graph_query listing
     vector_retriever).

(** X19. Which failures get out: [get_graph_context] raises exactly when the
    entity extraction raises, and [hybrid_retrieval] exactly when the vector
    retrieval or the entity extraction raises; a failing graph query never
    does. *)
Theorem retrieval_raises_iff query :
  (get_graph_context query = None ↔ extract_entity query = None)
  ∧ (hybrid_retrieval query = None
     ↔ vector_retriever query = None ∨ extract_entity query = None).
Proof.
  clear graph_query'.
  assert (get_graph_context query = None ↔ extract_entity query = None) as Hctx.
  { unfold GraphRAGChain.get_graph_context.
    destruct (extract_entity query) as [answer|]; [|tauto].
    destruct (graph_query (str_strip answer)); split; discriminate. }
  split; [exact Hctx|]. unfold GraphRAGChain.hybrid_retrieval.
  destruct (vector_retriever query) as [docs|]; [|tauto].
  destruct (GraphRAGChain.get_graph_context _ _ _ _ _ _ query) as [ctx|] eqn:Hq.
  - split; [discriminate|]. intros [Hv|He]; [discriminate|].
    apply Hctx in He. discriminate.
  - split; [|reflexivity]. intros _. right. apply Hctx. reflexivity.
Qed.

(** [list(set(xs))] holds every element of [xs] once, in an order of its
    own. *)
Hypothesis listing_distinct : ∀ xs, NoDup (listing xs) ∧ ∀ x, x ∈ listing xs ↔ x ∈ xs.

Lemma listing_length xs :
  (List.length (listing xs) <= List.length xs)%nat
  ∧ List.length (listing xs) = size (list_to_set xs : gset string).
Proof.
  destruct (listing_distinct xs) as [Hnodup Hmem]. split.
  - apply submseteq_length, NoDup_submseteq; [exact Hnodup|].
    intros x Hx. apply Hmem, Hx.
  - unfold size, set_size. cbn. apply Permutation_length.
    apply NoDup_Permutation; [exact Hnodup|apply NoDup_elements|].
    intros x. rewrite Hmem, elem_of_elements, elem_of_list_to_set. reflexivity.
Qed.

(** X20. The size of the context.  With [facts] the list that
    [list(set(context))] gives for the facts of the rows, the context is
    [facts] joined by line feeds; [facts] has no more elements than the
    traversal has rows, and as many as the rows have distinct facts; a
    traversal without rows gives the empty string, like a failed one. *)
Theorem graph_context_size query answer result :
  extract_entity query = Some answer ->
  graph_query (str_strip answer) = Some result ->
  let facts := listing (List.map fact_of result) in
  get_graph_context query = Some (PyStr.join newline facts)
  ∧ (List.length facts <= List.length result)%nat
  ∧ List.length facts = size (list_to_set (List.map fact_of result) : gset string)
  ∧ (result = [] -> get_graph_context query = Some EmptyString).
Proof.
  clear vector_retriever graph_query'. intros Hentity Hrows facts. subst facts.
  unfold GraphRAGChain.get_graph_context. rewrite Hentity, Hrows.
  destruct (listing_length (List.map fact_of result)) as [Hle Hsize].
  split; [reflexivity|]. split; [rewrite <- (List.length_map fact_of result); exact Hle|].
  split; [exact Hsize|].
  intros ->. cbn [List.map].
  destruct (listing_distinct []) as [_ Hmem].
  destruct (listing []) as [|x xs]; [reflexivity|].
  exfalso. apply (not_elem_of_nil x), Hmem. left.
Qed.

(** X21. The context depends on the facts of the rows up to their order: of
    two traversals whose rows give the same facts, in whatever order and
    however often, the contexts are the line-feed joins of two lists that are
    permutations of each other.  The two contexts can differ as strings, the
    order of [list(set(context))] being free. *)
Theorem graph_context_order_free query answer result result' :
  extract_entity query = Some answer ->
  graph_query (str_strip answer) = Some result ->
  graph_query' (str_strip answer) = Some result' ->
  (∀ fact, In fact (List.map fact_of result) ↔ In fact (List.map fact_of result')) ->
  let facts := listing (List.map fact_of result) in
  let facts' := listing (List.map fact_of result') in
  get_graph_context query = Some (PyStr.join newline facts)
  ∧ get_graph_context' query = Some (PyStr.join newline facts')
  ∧ facts ≡ₚ facts'.
Proof.
  clear vector_retriever. intros Hentity Hrows Hrows' Hsame facts facts'. subst facts facts'.
  unfold GraphRAGChain.get_graph_context. rewrite Hentity, Hrows, Hrows'.
  split; [reflexivity|]. split; [reflexivity|].
  destruct (listing_distinct (List.map fact_of result)) as [Hnodup Hmem].
  destruct (listing_distinct (List.map fact_of result')) as [Hnodup' Hmem'].
  apply NoDup_Permutation; [exact Hnodup|exact Hnodup'|].
  intros fact. rewrite Hmem, Hmem', !list_elem_of_In. apply Hsame.
Qed.

End RetrievalMoreFacts.

(** ** Node styling *)

Section VisualizerFacts.

Import Visualizer.

(** X22. The two tables of the visualizer agree: a node is drawn large
    exactly when it is drawn in the colour of organizations and brands, and
    every other node, those without a label included, has size 15. *)
Theorem node_size_matches_color group :
  (node_size group = 25 ↔ node_color group = "#ff5733")
  ∧ (node_size group = 25 ∨ node_size group = 15)
  ∧ node_size (group_of []) = 15.
Proof.
  split; [|split].
  - unfold node_size, node_color, color_map.
    rewrite !lookup_insert, lookup_empty.
    destruct (decide ("Organization" = group)) as [<-|Ho]; [split; reflexivity|].
    destruct (decide ("Brand" = group)) as [<-|Hb]; [split; reflexivity|].
    rewrite bool_decide_eq_false_2
      by (rewrite !elem_of_cons, elem_of_nil; intros [->|[->|[]]]; congruence).
    repeat case_decide; cbn; split; discriminate.
  - unfold node_size. case_bool_decide; [left|right]; reflexivity.
  - reflexivity.
Qed.

End VisualizerFacts.

(** ** The further properties at work on the concrete worlds *)

Lemma plain_frame_reachable :
  WebLoader.reachable Worlds.netloc Worlds.urljoin Worlds.plain_site "http://a.com/" 2 20
    Worlds.plain_frame.
Proof.
  eapply WebLoader.reach_next; [apply WebLoader.reach_entry | vm_compute; reflexivity].
Defined.

(** X1 on the second frame of the three-page site. *)
Lemma crawl_requests_once_witness :
  NoDup (List.map fst (WebLoader.fetched (WebLoader.self Worlds.plain_frame)))
  ∧ List.map WebLoader.source (WebLoader.all_docs Worlds.plain_frame)
    = List.filter (Frontier.responds Worlds.plain_site)
        (List.map fst (WebLoader.fetched (WebLoader.self Worlds.plain_frame))).
Proof.
  exact (crawl_requests_once Worlds.netloc Worlds.urljoin Worlds.plain_site
           "http://a.com/" 2 20 Worlds.plain_frame plain_frame_reachable).
Defined.

(** X2 on the three documents of the three-page site. *)
Lemma load_documents_bounded_witness :
  Z.of_nat
    (List.length
       [WebLoader.mkDocument "home" "http://a.com/" (Some "home");
        WebLoader.mkDocument "b" "http://a.com/b" (Some "b");
        WebLoader.mkDocument "c" "http://a.com/c" (Some "c")]) <= 20.
Proof.
  refine (proj1 (load_documents_bounded Worlds.netloc Worlds.urljoin Worlds.plain_site
                   "http://a.com/" 2 20 10%nat _ _ _)).
  - lia.
  - vm_compute. reflexivity.
Defined.

(** X4 with a page cap of zero. *)
Lemma load_degenerate_bounds_witness :
  WebLoader.load Worlds.netloc Worlds.urljoin Worlds.lone_site "http://a.com/" 2 0 2
  = Some (WebLoader.Returned []).
Proof.
  refine (proj1 (load_degenerate_bounds Worlds.netloc Worlds.urljoin Worlds.lone_site
                   "http://a.com/" 2 0 _)).
  left. lia.
Defined.

(** X5 with a seed the site does not have. *)
Lemma load_seed_unreachable_witness :
  WebLoader.load Worlds.netloc Worlds.urljoin Worlds.lone_site "http://a.com/missing" 2 10 2
  = Some (WebLoader.Returned []).
Proof.
  refine (load_seed_unreachable Worlds.netloc Worlds.urljoin Worlds.lone_site
            "http://a.com/missing" 2 10 _ _ _).
  - reflexivity.
  - lia.
  - lia.
Defined.

(** X6 on the three-page site: the front page only. *)
Lemma load_depth_zero_witness :
  WebLoader.load Worlds.netloc Worlds.urljoin Worlds.plain_site "http://a.com/" 0 20 2
  = Some (WebLoader.Returned (Frontier.page_docs Worlds.plain_site "http://a.com/")).
Proof.
  refine (load_depth_zero Worlds.netloc Worlds.urljoin Worlds.plain_site
            "http://a.com/" 0 20 _ _).
  - reflexivity.
  - lia.
Defined.

(** X7 on the second frame of the three-page site. *)
Lemma crawl_breadth_first_witness :
  StronglySorted Z.le
    (List.map snd (WebLoader.fetched (WebLoader.self Worlds.plain_frame))).
Proof.
  exact (proj1 (crawl_breadth_first Worlds.netloc Worlds.urljoin Worlds.plain_site
                  "http://a.com/" 2 20 Worlds.plain_frame plain_frame_reachable)).
Defined.

(** X8 on the second frame of the three-page site. *)
Lemma crawl_depth_guard_idle_witness :
  Forall (fun p => 0 <= snd p <= 2) (WebLoader.queue Worlds.plain_frame).
Proof.
  refine (proj1 (crawl_depth_guard_idle Worlds.netloc Worlds.urljoin Worlds.plain_site
                   "http://a.com/" 2 20 Worlds.plain_frame _ plain_frame_reachable)).
  lia.
Defined.

(** X9 on the second frame of the three-page site, whose front page links
    to [http://a.com/b#top]. *)
Lemma crawl_fragment_free_witness :
  Forall (fun p => fst p = "http://a.com/" ∨ Frontier.has_no_fragment (fst p) = true)
    (WebLoader.queue Worlds.plain_frame).
Proof.
  exact (proj2 (crawl_fragment_free Worlds.netloc Worlds.urljoin Worlds.plain_site
                  "http://a.com/" 2 20 Worlds.plain_frame plain_frame_reachable)).
Defined.

(** X10 on two ragged lines. *)
Lemma clean_text_lines_tidy_witness :
  CleanText.splitlines (CleanText.clean_text Worlds.ragged_text)
  = ["Alice"; "works for Acme"; "Acme"; "sells"; "tea"]
  ∧ Forall CleanText.tidy (CleanText.clean_chunks Worlds.ragged_text).
Proof.
  exact (proj2 (clean_text_lines_tidy Worlds.ragged_text eq_refl)).
Defined.

(** X11 on the same text. *)
Lemma clean_text_idempotent_witness :
  CleanText.clean_text (CleanText.clean_text Worlds.ragged_text)
  = CleanText.clean_text Worlds.ragged_text.
Proof.
  exact (proj2 (clean_text_idempotent Worlds.ragged_text eq_refl)).
Defined.

(** X12 on a text of blanks, a tab and line boundaries. *)
Lemma clean_text_blank_witness : CleanText.clean_text Worlds.blank_text = EmptyString.
Proof. refine (clean_text_blank Worlds.blank_text _). reflexivity. Defined.

Lemma blank_well_linked : StoreInvariants.well_linked (GraphBuilder.graph Worlds.blank).
Proof.
  intros source label target [description Hedge]. cbn in Hedge.
  rewrite lookup_empty in Hedge. discriminate.
Defined.

Lemma blank_normalized :
  StoreInvariants.normalized PyStr.strip (GraphBuilder.graph Worlds.blank).
Proof.
  split.
  - intros id [type Hid]. cbn in Hid. rewrite lookup_empty in Hid. discriminate.
  - intros source label target [description Hedge]. cbn in Hedge.
    rewrite lookup_empty in Hedge. discriminate.
Defined.

(** X15 on three chunks, one of them failing half way. *)
Lemma ingest_documents_well_linked_witness :
  StoreInvariants.well_linked
    (GraphBuilder.graph (Worlds.ingest ["alice"; "carol"; "bob"] Worlds.blank)).
Proof.
  exact (ingest_documents_well_linked PyStr.strip PyStr.upper Worlds.extraction Worlds.rejects
           (List.map Worlds.chunk ["alice"; "carol"; "bob"]) Worlds.blank blank_well_linked).
Defined.

(** X16 on the same three chunks, of ASCII text. *)
Lemma ingest_documents_normalized_witness :
  StoreInvariants.normalized PyStr.strip
    (GraphBuilder.graph (Worlds.ingest ["alice"; "carol"; "bob"] Worlds.blank)).
Proof.
  exact (ingest_documents_normalized PyStr.strip PyStr.upper Worlds.extraction Worlds.rejects
           (List.map Worlds.chunk ["alice"; "carol"; "bob"]) Worlds.blank
           strip_idempotent blank_normalized).
Defined.

(** X17 on the chunk about Alice and Acme. *)
Lemma ingested_nodes_stored_witness :
  ∃ node', In node' (GraphBuilder.nodes Worlds.alice_acme)
           ∧ PyStr.strip (GraphBuilder.node_id node') = PyStr.strip " Alice"
           ∧ GraphBuilder.entities (GraphBuilder.graph (Worlds.ingest ["alice"] Worlds.blank))
               !! PyStr.strip " Alice"
             = Some (GraphBuilder.node_type node').
Proof.
  refine (ingested_nodes_stored PyStr.strip PyStr.upper Worlds.extraction Worlds.rejects
            (Worlds.chunk "alice")
            Worlds.alice_acme Worlds.blank (GraphBuilder.mkNode " Alice" "Person") _ _ _).
  - reflexivity.
  - reflexivity.
  - left. reflexivity.
Defined.

(** X18 on the relationship of that chunk. *)
Lemma ingested_relationship_stored_witness :
  is_Some
    (GraphBuilder.edges (GraphBuilder.graph (Worlds.ingest ["alice"] Worlds.blank))
       !! (PyStr.strip "Alice ", StoreInvariants.label_of PyStr.upper "works for",
           PyStr.strip " Acme")).
Proof.
  refine (ingested_relationship_stored PyStr.strip PyStr.upper Worlds.extraction
            Worlds.rejects (Worlds.chunk "alice")
            Worlds.alice_acme Worlds.blank
            (GraphBuilder.mkRelationship "Alice " (Some " Acme") "works for" None) " Acme"
            _ _ _ _ _ _ _).
  - reflexivity.
  - reflexivity.
  - left. reflexivity.
  - reflexivity.
  - discriminate.
  - exists "Person". vm_compute. reflexivity.
  - exists "Organization". vm_compute. reflexivity.
Defined.

(** X20 on a traversal of three rows with two facts. *)
Lemma graph_context_size_witness :
  let facts :=
    Worlds.set_listing
      (List.map (GraphRAGChain.fact_of string Worlds.dict_str)
         [Worlds.works_for; Worlds.sells; Worlds.works_for]) in
  GraphRAGChain.get_graph_context string Worlds.dict_str PyStr.strip Worlds.entity_of
    Worlds.traversal Worlds.set_listing "who works for Acme?"
  = Some (PyStr.join GraphRAGChain.newline facts)
  ∧ (List.length facts <= 3)%nat.
Proof.
  pose proof (graph_context_size string Worlds.dict_str PyStr.strip Worlds.entity_of
                Worlds.traversal Worlds.set_listing set_listing_distinct
                "who works for Acme?" " Acme "
                [Worlds.works_for; Worlds.sells; Worlds.works_for] eq_refl eq_refl)
    as (Hcontext & Hle & _).
  split; [exact Hcontext|exact Hle].
Defined.

(** X21 on two traversals with the same facts. *)
Lemma graph_context_order_free_witness :
  Worlds.set_listing
    (List.map (GraphRAGChain.fact_of string Worlds.dict_str)
       [Worlds.works_for; Worlds.sells; Worlds.works_for])
  ≡ₚ Worlds.set_listing
       (List.map (GraphRAGChain.fact_of string Worlds.dict_str)
          [Worlds.sells; Worlds.works_for]).
Proof.
  refine (proj2 (proj2 (graph_context_order_free string Worlds.dict_str PyStr.strip
                          Worlds.entity_of Worlds.traversal Worlds.traversal_once
                          Worlds.set_listing set_listing_distinct
                          "who works for Acme?" " Acme "
                          [Worlds.works_for; Worlds.sells; Worlds.works_for]
                          [Worlds.sells; Worlds.works_for] eq_refl eq_refl eq_refl _))).
  intros fact. cbn [List.map In]. tauto.
Defined.

(** The order of first insertion is an order [list(set(xs))] can come in,
    and in it the two traversals give two different contexts. *)
Lemma insertion_listing_distinct xs :
  NoDup (Worlds.insertion_listing xs) ∧ ∀ x, x ∈ Worlds.insertion_listing xs ↔ x ∈ xs.
Proof.
  unfold Worlds.insertion_listing. split; [rewrite reverse_Permutation; apply NoDup_remove_dups|].
  intros x. rewrite elem_of_reverse, elem_of_remove_dups, elem_of_reverse. reflexivity.
Qed.

Example context_order_differs :
  GraphRAGChain.get_graph_context string Worlds.dict_str PyStr.strip Worlds.entity_of
    Worlds.traversal Worlds.insertion_listing "who works for Acme?"
  <> GraphRAGChain.get_graph_context string Worlds.dict_str PyStr.strip Worlds.entity_of
       Worlds.traversal_once Worlds.insertion_listing "who works for Acme?".
Proof. vm_compute. discriminate. Qed.

(** X23 on the three-page site with a cap of twenty pages. *)
Lemma load_iteration_bound_witness :
  ∃ o, WebLoader.load Worlds.netloc Worlds.urljoin Worlds.plain_site "http://a.com/" 2 20 21
       = Some o.
Proof.
  refine (load_iteration_bound Worlds.netloc Worlds.urljoin Worlds.plain_site
            "http://a.com/" 2 20 _).
  lia.
Defined.
